(** * Teacup_Arm: step timer (timer-avr.c) and endstop homing (home.c)

    A shallow embedding of the two translation units and the properties
    their documentation promises.

    - [Timer] embeds [timer_set] and the comparator-A interrupt handler of
      timer-avr.c as functions on the timer-1 register file, together with
      the global [next_step_time].
    - [Home] embeds the eight per-axis homing routines of home.c as
      programs in a state monad whose state carries [startpoint],
      [next_target.target] and the sequence of calls made into the movement
      queue. *)

From Stdlib Require Import ZArith Lia List Bool Floats.
From ExtLib Require Import Structures.Monad Structures.MonadState.
From ExtLib Require Import Data.Monads.StateMonad.
Import ListNotations.
Import MonadNotation.
Local Open Scope Z_scope.
Local Open Scope monad_scope.

(** ** C integer conversions *)

Definition to_uint8 (x : Z) : Z := x mod 2 ^ 8.
Definition to_uint16 (x : Z) : Z := x mod 2 ^ 16.
Definition to_uint32 (x : Z) : Z := x mod 2 ^ 32.

(** [(int32_t) f] and [(uint32_t) f] for a [double] within the range of the
    target type: the fractional part is discarded.  Outside the range, and
    for infinities and NaN, C leaves the conversion undefined; the model
    returns the truncated value, respectively 0. *)
Definition double_to_Z (f : float) : Z :=
  match Prim2SF f with
  | S754_finite sign m e =>
      let magnitude := if 0 <=? e then Z.pos m * 2 ^ e else Z.pos m / 2 ^ (- e) in
      if sign then - magnitude else magnitude
  | _ => 0
  end.

Module Timer.

(** ** Machine state *)

(** The build targets of timer-avr.c ([__AVR__] or [SIMULATOR]).  They
    differ in the width of [int]: 16 bits with avr-gcc, 32 bits on the
    host that runs the simulator.  The width decides how the [uint16_t]
    operands of the short-request test are promoted. *)
Inductive platform : Set := AVR | SIMULATOR.

Record config : Set := {
  target : platform;
  ACCELERATION_TEMPORAL : bool   (* #ifdef ACCELERATION_TEMPORAL *)
}.

(** Timer-1 registers used by the step clock, the global interrupt flag of
    SREG, and the global variable [next_step_time]. *)
Record avr : Set := {
  OCR1A : Z;             (* uint16_t, comparator A *)
  TCNT1 : Z;             (* uint16_t, free running counter *)
  TIMSK1 : Z;            (* uint8_t, interrupt mask *)
  SREG_I : bool;         (* global interrupt enable *)
  next_step_time : Z     (* uint32_t *)
}.

Definition set_OCR1A (v : Z) (s : avr) : avr :=
  {| OCR1A := v; TCNT1 := TCNT1 s; TIMSK1 := TIMSK1 s; SREG_I := SREG_I s;
     next_step_time := next_step_time s |}.
Definition set_TCNT1 (v : Z) (s : avr) : avr :=
  {| OCR1A := OCR1A s; TCNT1 := v; TIMSK1 := TIMSK1 s; SREG_I := SREG_I s;
     next_step_time := next_step_time s |}.
Definition set_TIMSK1 (v : Z) (s : avr) : avr :=
  {| OCR1A := OCR1A s; TCNT1 := TCNT1 s; TIMSK1 := v; SREG_I := SREG_I s;
     next_step_time := next_step_time s |}.
Definition set_SREG_I (v : bool) (s : avr) : avr :=
  {| OCR1A := OCR1A s; TCNT1 := TCNT1 s; TIMSK1 := TIMSK1 s; SREG_I := v;
     next_step_time := next_step_time s |}.
Definition set_next_step_time (v : Z) (s : avr) : avr :=
  {| OCR1A := OCR1A s; TCNT1 := TCNT1 s; TIMSK1 := TIMSK1 s; SREG_I := SREG_I s;
     next_step_time := v |}.

(** Register contents are within the width of their C type. *)
Definition wf (s : avr) : Prop :=
  0 <= OCR1A s < 65536 /\ 0 <= TCNT1 s < 65536 /\
  0 <= TIMSK1 s < 256 /\ 0 <= next_step_time s < 2 ^ 32.

(** [MASK(x)] is [(1 << x)]; [OCIE1A] is bit 1 of TIMSK1 (avr/io.h). *)
Definition MASK (b : Z) : Z := Z.shiftl 1 b.
Definition OCIE1A : Z := 1.

Definition cli (s : avr) : avr := set_SREG_I false s.

(** Whether the comparator-A interrupt is enabled in TIMSK1. *)
Definition step_interrupt_armed (s : avr) : bool := Z.testbit (TIMSK1 s) OCIE1A.

(** ** timer_set *)

(** Value of [(current_time - step_start) + 200], both operands
    [uint16_t].  With a 16-bit [int] the operands stay [unsigned int] and
    difference and sum wrap modulo 2^16; with a 32-bit [int] they are
    promoted to [int] and nothing wraps. *)
Definition elapsed_plus_safe (p : platform) (current_time step_start : Z) : Z :=
  match p with
  | AVR => to_uint16 (to_uint16 (current_time - step_start) + 200)
  | SIMULATOR => (current_time - step_start) + 200
  end.

(** [uint8_t timer_set(int32_t delay, uint8_t check_short)]: the returned
    flag and the machine state at the return.  The simulator's
    [sim_timer_set()] notification has no effect on this state. *)
Definition timer_set (cfg : config) (delay : Z) (check_short : Z) (s : avr)
  : Z * avr :=
  let s := cli s in
  let step_start := OCR1A s in
  let s := set_next_step_time (to_uint32 delay) s in
  if ACCELERATION_TEMPORAL cfg && negb (check_short =? 0)
     && (elapsed_plus_safe (target cfg) (TCNT1 s) step_start >? delay)
  then (1, s)
  else
    let s :=
      if next_step_time s <? 65536 then
        set_OCR1A (Z.land (next_step_time s + step_start) 0xFFFF) s
      else if next_step_time s <? 75536 then
        let s := set_OCR1A (Z.land (step_start - 10000) 0xFFFF) s in
        set_next_step_time (to_uint32 (next_step_time s + 10000)) s
      else
        set_OCR1A step_start s in
    let s := set_TIMSK1 (to_uint8 (Z.lor (TIMSK1 s) (MASK OCIE1A))) s in
    (0, s).

(** One [timer_set(delay, 0)] per step; [now] is what the counter reads
    when the call is made, that is, how far the caller's processing has
    got since the previous compare event. *)
Fixpoint schedule_steps (cfg : config) (reqs : list (Z * Z)) (s : avr) : avr :=
  match reqs with
  | [] => s
  | (delay, now) :: rest =>
      schedule_steps cfg rest (snd (timer_set cfg delay 0 (set_TCNT1 now s)))
  end.

(** ** Step interrupt *)

Section StepInterrupt.

(** [queue_step()] lives in dda_queue.c; its effect on the timer state is a
    parameter of the handler. *)
Variable queue_step : avr -> avr.

(** [ISR(TIMER1_COMPA_vect)]. *)
Definition ISR_TIMER1_COMPA (s : avr) : avr :=
  if next_step_time s <? 65536 then
    let s := set_TIMSK1 (to_uint8 (Z.land (TIMSK1 s) (Z.lnot (MASK OCIE1A)))) s in
    queue_step s
  else
    let s := set_next_step_time (to_uint32 (next_step_time s - 65536)) s in
    if next_step_time s <? 65536 then
      set_OCR1A (Z.land (OCR1A s + next_step_time s) 0xFFFF) s
    else if next_step_time s <? 75536 then
      let s := set_OCR1A (Z.land (OCR1A s - 10000) 0xFFFF) s in
      set_next_step_time (to_uint32 (next_step_time s + 10000)) s
    else
      s.

(** *** The free-running counter

    Comparator A matches when the 16-bit counter equals OCR1A.  Counting
    from a match at counter value [since], the next match with compare
    value [ocr] comes after [ticks_until_match since ocr] ticks: a full
    round of the counter when the compare value did not move. *)
Definition ticks_until_match (since ocr : Z) : Z :=
  let d := (ocr - since) mod 65536 in
  if d =? 0 then 65536 else d.

(** The gaps, in counter ticks, between successive comparator-A interrupts
    from the compare event at counter value [since] up to and including
    the interrupt that takes the real step.  All entries but the last
    belong to interrupts that only wind [next_step_time] down.  The first
    gap is the distance from [since] to OCR1A; TCNT1 is not consulted (see
    [gaps_on_counter] below for a value programmed later in the round). *)
Fixpoint fire_gaps (fuel : nat) (since : Z) (s : avr) : option (list Z) :=
  match fuel with
  | O => None
  | S fuel' =>
      let gap := ticks_until_match since (OCR1A s) in
      if next_step_time s <? 65536 then Some [gap]
      else option_map (cons gap)
             (fire_gaps fuel' (OCR1A s) (ISR_TIMER1_COMPA (set_TCNT1 (OCR1A s) s)))
  end.

End StepInterrupt.

Definition sumZ (l : list Z) : Z := fold_right Z.add 0 l.

(** *** Sample configurations and states *)

Definition avr_temporal : config :=
  {| target := AVR; ACCELERATION_TEMPORAL := true |}.
Definition sim_temporal : config :=
  {| target := SIMULATOR; ACCELERATION_TEMPORAL := true |}.
Definition avr_ramping : config :=
  {| target := AVR; ACCELERATION_TEMPORAL := false |}.

(** In the step interrupt 300 ticks after the compare event at 1000; only
    the system clock interrupt (OCIE1B, bit 2) is enabled. *)
Definition in_step_isr : avr :=
  {| OCR1A := 1000; TCNT1 := 1300; TIMSK1 := 4; SREG_I := false;
     next_step_time := 0 |}.

(** After [timer_set(3 * 65536 + 1234, 0)] made in [in_step_isr], and
    after the first and the second comparator-A interrupt that follow,
    with a [queue_step] that does nothing. *)
Definition long_wait_0 : avr := snd (timer_set avr_ramping (3 * 65536 + 1234) 0 in_step_isr).
Definition long_wait_1 : avr := ISR_TIMER1_COMPA (fun s => s) long_wait_0.
Definition long_wait_2 : avr := ISR_TIMER1_COMPA (fun s => s) long_wait_1.

(** *** A compare value programmed while the counter runs

    [fire_gaps] counts its first gap from the compare event to the compare
    value.  That is the time the interrupt takes when the value is still
    ahead of the counter.  [timer_set] however runs some time after the
    event, when the counter reads TCNT1, and the comparator matches only
    when the counter next reaches OCR1A: a value the counter has passed
    already is met a round later. *)

(** Ticks gone since the compare event at counter value [since], in a
    state reached less than a round of the counter after it. *)
Definition ticks_gone (since : Z) (s : avr) : Z := (TCNT1 s - since) mod 65536.

Section OnCounter.

Variable queue_step : avr -> avr.

(** The gaps of [fire_gaps] for a state in which OCR1A has just been
    programmed while the counter reads TCNT1: the first interrupt comes
    when the counter next reaches OCR1A, the time gone since the event at
    [since] counted in.  The interrupts after it are served at their match
    and programme the next compare value from there. *)
Definition gaps_on_counter (fuel : nat) (since : Z) (s : avr) : option (list Z) :=
  match fuel with
  | O => None
  | S fuel' =>
      let gap := ticks_gone since s + ticks_until_match (TCNT1 s) (OCR1A s) in
      if next_step_time s <? 65536 then Some [gap]
      else option_map (cons gap)
             (fire_gaps queue_step fuel' (OCR1A s)
                (ISR_TIMER1_COMPA queue_step (set_TCNT1 (OCR1A s) s)))
  end.

End OnCounter.



(** 65336 ticks after the compare event at 0: 200 more make a full round. *)
Definition sum_wraps : avr :=
  {| OCR1A := 0; TCNT1 := 65336; TIMSK1 := 4; SREG_I := false;
     next_step_time := 0 |}.

(** 100 ticks after the compare event at 65500, the counter having passed
    65535 in between. *)
Definition counter_wrapped : avr :=
  {| OCR1A := 65500; TCNT1 := 64; TIMSK1 := 4; SREG_I := false;
     next_step_time := 0 |}.

End Timer.

(** * home.c *)

Module Home.

(** Indices into [TARGET.axis]. *)
Module Axis.
Inductive t : Set := X | Y | Z | U | E.
End Axis.

(** [TARGET] of dda.h, as far as home.c touches it: a position in
    micrometres and a feedrate. *)
Record TARGET : Set := {
  axis_X : Z; axis_Y : Z; axis_Z : Z; axis_U : Z; axis_E : Z;   (* int32_t axis[] *)
  F : Z                                                           (* uint32_t *)
}.

Definition axis (t : TARGET) (a : Axis.t) : Z :=
  match a with
  | Axis.X => axis_X t | Axis.Y => axis_Y t | Axis.Z => axis_Z t
  | Axis.U => axis_U t | Axis.E => axis_E t
  end.

(** [t.axis[a] = v] *)
Definition set_axis (a : Axis.t) (v : Z) (t : TARGET) : TARGET :=
  {| axis_X := match a with Axis.X => v | _ => axis_X t end;
     axis_Y := match a with Axis.Y => v | _ => axis_Y t end;
     axis_Z := match a with Axis.Z => v | _ => axis_Z t end;
     axis_U := match a with Axis.U => v | _ => axis_U t end;
     axis_E := match a with Axis.E => v | _ => axis_E t end;
     F := F t |}.

(** [t.F = v] *)
Definition set_F (v : Z) (t : TARGET) : TARGET :=
  {| axis_X := axis_X t; axis_Y := axis_Y t; axis_Z := axis_Z t;
     axis_U := axis_U t; axis_E := axis_E t; F := v |}.

(** ** Build configuration (config.h) *)

(** A [*_PIN] field tells whether the macro is defined; [*_MIN] and [*_MAX]
    are the optional travel limits in millimetres. *)
Record config : Set := {
  ACCELERATION : float;
  X_MIN_PIN : bool; X_MAX_PIN : bool;
  Y_MIN_PIN : bool; Y_MAX_PIN : bool;
  Z_MIN_PIN : bool; Z_MAX_PIN : bool;
  U_MIN_PIN : bool; U_MAX_PIN : bool;
  SEARCH_FEEDRATE_X : Z; SEARCH_FEEDRATE_Y : Z;
  SEARCH_FEEDRATE_Z : Z; SEARCH_FEEDRATE_U : Z;
  ENDSTOP_CLEARANCE_X : float; ENDSTOP_CLEARANCE_Y : float;
  ENDSTOP_CLEARANCE_Z : float; ENDSTOP_CLEARANCE_U : float;
  X_MIN : option float; X_MAX : option float;
  Y_MIN : option float; Y_MAX : option float;
  Z_MIN : option float; Z_MAX : option float;
  U_MIN : option float; U_MAX : option float
}.

(** ** Fast search feedrates *)

Definition SEARCH_FAST_X (cfg : config) : Z :=
  double_to_Z (60 * PrimFloat.sqrt (2 * ACCELERATION cfg * ENDSTOP_CLEARANCE_X cfg / 1000))%float.
Definition SEARCH_FAST_Y (cfg : config) : Z :=
  double_to_Z (60 * PrimFloat.sqrt (2 * ACCELERATION cfg * ENDSTOP_CLEARANCE_Y cfg / 1000))%float.
Definition SEARCH_FAST_Z (cfg : config) : Z :=
  double_to_Z (60 * PrimFloat.sqrt (2 * ACCELERATION cfg * ENDSTOP_CLEARANCE_Z cfg / 1000))%float.
Definition SEARCH_FAST_U (cfg : config) : Z :=
  double_to_Z (60 * PrimFloat.sqrt (2 * ACCELERATION cfg * ENDSTOP_CLEARANCE_U cfg / 1000))%float.

(** ** Globals, the movement queue, and what a routine is seen to do *)

Record globals : Set := {
  startpoint : TARGET;
  next_target_target : TARGET     (* next_target.target *)
}.

(** The functions home.c calls are defined in dda_queue.c and dda.c.  What
    they do to the globals is a parameter of the model. *)
Record queue_api : Set := {
  enqueue_home_effect : TARGET -> Z -> Z -> globals -> globals;
  queue_wait_effect : globals -> globals;
  dda_new_startpoint_effect : globals -> globals
}.

(** Calls made and globals stored, in program order. *)
Inductive event : Set :=
| Enqueue_home (t : TARGET) (endstop_check : Z) (endstop_stop_cond : Z)
| Queue_wait
| Store_next_target (a : Axis.t) (v : Z)
| Store_startpoint (a : Axis.t) (v : Z)
| Dda_new_startpoint.

Record world : Set := { mem : globals; trace : list event }.

Definition log (e : event) (f : globals -> globals) : state world unit :=
  w <- get ;;
  put {| mem := f (mem w); trace := trace w ++ [e] |}.

Section Routines.

Variable api : queue_api.
Variable cfg : config.

Definition enqueue_home (t : TARGET) (endstop_check endstop_stop_cond : Z)
  : state world unit :=
  log (Enqueue_home t endstop_check endstop_stop_cond)
      (enqueue_home_effect api t endstop_check endstop_stop_cond).

Definition queue_wait : state world unit :=
  log Queue_wait (queue_wait_effect api).

Definition dda_new_startpoint : state world unit :=
  log Dda_new_startpoint (dda_new_startpoint_effect api).

Definition read_startpoint : state world TARGET :=
  w <- get ;; ret (startpoint (mem w)).

(** [startpoint.axis[a] = next_target.target.axis[a] = v;] *)
Definition store_position (a : Axis.t) (v : Z) : state world unit :=
  log (Store_next_target a v)
      (fun g => {| startpoint := startpoint g;
                   next_target_target := set_axis a v (next_target_target g) |}) ;;
  log (Store_startpoint a v)
      (fun g => {| startpoint := set_axis a v (startpoint g);
                   next_target_target := next_target_target g |}).

(** find X MIN endstop *)
Definition home_x_negative : state world unit :=
  if X_MIN_PIN cfg then
    t <- read_startpoint ;;
    let t := set_axis Axis.X (-1000000) t in
    let t := if SEARCH_FAST_X cfg >? SEARCH_FEEDRATE_X cfg
             then set_F (SEARCH_FAST_X cfg) t
             else set_F (SEARCH_FEEDRATE_X cfg) t in
    enqueue_home t 0x01 1 ;;
    (if SEARCH_FAST_X cfg >? SEARCH_FEEDRATE_X cfg then
       (* back off slowly *)
       let t := set_axis Axis.X 1000000 t in
       let t := set_F (SEARCH_FEEDRATE_X cfg) t in
       enqueue_home t 0x01 0
     else ret tt) ;;
    (* set X home *)
    queue_wait ;;
    match X_MIN cfg with
    | Some x_min => store_position Axis.X (double_to_Z (x_min * 1000)%float)
    | None => store_position Axis.X 0
    end ;;
    dda_new_startpoint
  else ret tt.

(** find X_MAX endstop.  With [X_MAX_PIN] but without [X_MAX] the file does
    not build ([#error]); the same holds for the other positive routines. *)
Definition home_x_positive : state world unit :=
  match X_MAX_PIN cfg, X_MAX cfg with
  | true, Some x_max =>
    t <- read_startpoint ;;
    let t := set_axis Axis.X 1000000 t in
    let t := if SEARCH_FAST_X cfg >? SEARCH_FEEDRATE_X cfg
             then set_F (SEARCH_FAST_X cfg) t
             else set_F (SEARCH_FEEDRATE_X cfg) t in
    enqueue_home t 0x02 1 ;;
    (if SEARCH_FAST_X cfg >? SEARCH_FEEDRATE_X cfg then
       let t := set_axis Axis.X (-1000000) t in
       let t := set_F (SEARCH_FEEDRATE_X cfg) t in
       enqueue_home t 0x02 0
     else ret tt) ;;
    queue_wait ;;
    store_position Axis.X (double_to_Z (x_max * 1000)%float) ;;
    dda_new_startpoint
  | _, _ => ret tt
  end.

(** find Y MIN endstop *)
Definition home_y_negative : state world unit :=
  if Y_MIN_PIN cfg then
    t <- read_startpoint ;;
    let t := set_axis Axis.Y (-1000000) t in
    let t := if SEARCH_FAST_Y cfg >? SEARCH_FEEDRATE_Y cfg
             then set_F (SEARCH_FAST_Y cfg) t
             else set_F (SEARCH_FEEDRATE_Y cfg) t in
    enqueue_home t 0x04 1 ;;
    (if SEARCH_FAST_Y cfg >? SEARCH_FEEDRATE_Y cfg then
       let t := set_axis Axis.Y 1000000 t in
       let t := set_F (SEARCH_FEEDRATE_Y cfg) t in
       enqueue_home t 0x04 0
     else ret tt) ;;
    queue_wait ;;
    match Y_MIN cfg with
    | Some y_min => store_position Axis.Y (double_to_Z (y_min * 1000)%float)
    | None => store_position Axis.Y 0
    end ;;
    dda_new_startpoint
  else ret tt.

(** find Y MAX endstop *)
Definition home_y_positive : state world unit :=
  match Y_MAX_PIN cfg, Y_MAX cfg with
  | true, Some y_max =>
    t <- read_startpoint ;;
    let t := set_axis Axis.Y 1000000 t in
    let t := if SEARCH_FAST_Y cfg >? SEARCH_FEEDRATE_Y cfg
             then set_F (SEARCH_FAST_Y cfg) t
             else set_F (SEARCH_FEEDRATE_Y cfg) t in
    enqueue_home t 0x08 1 ;;
    (if SEARCH_FAST_Y cfg >? SEARCH_FEEDRATE_Y cfg then
       let t := set_axis Axis.Y (-1000000) t in
       let t := set_F (SEARCH_FEEDRATE_Y cfg) t in
       enqueue_home t 0x08 0
     else ret tt) ;;
    queue_wait ;;
    store_position Axis.Y (double_to_Z (y_max * 1000)%float) ;;
    dda_new_startpoint
  | _, _ => ret tt
  end.

(** find Z MIN endstop *)
Definition home_z_negative : state world unit :=
  if Z_MIN_PIN cfg then
    t <- read_startpoint ;;
    let t := set_axis Axis.Z (-1000000) t in
    let t := if SEARCH_FAST_Z cfg >? SEARCH_FEEDRATE_Z cfg
             then set_F (SEARCH_FAST_Z cfg) t
             else set_F (SEARCH_FEEDRATE_Z cfg) t in
    enqueue_home t 0x10 1 ;;
    (if SEARCH_FAST_Z cfg >? SEARCH_FEEDRATE_Z cfg then
       let t := set_axis Axis.Z 1000000 t in
       let t := set_F (SEARCH_FEEDRATE_Z cfg) t in
       enqueue_home t 0x10 0
     else ret tt) ;;
    queue_wait ;;
    match Z_MIN cfg with
    | Some z_min => store_position Axis.Z (double_to_Z (z_min * 1000)%float)
    | None => store_position Axis.Z 0
    end ;;
    dda_new_startpoint
  else ret tt.

(** find Z MAX endstop *)
Definition home_z_positive : state world unit :=
  match Z_MAX_PIN cfg, Z_MAX cfg with
  | true, Some z_max =>
    t <- read_startpoint ;;
    let t := set_axis Axis.Z 1000000 t in
    let t := if SEARCH_FAST_Z cfg >? SEARCH_FEEDRATE_Z cfg
             then set_F (SEARCH_FAST_Z cfg) t
             else set_F (SEARCH_FEEDRATE_Z cfg) t in
    enqueue_home t 0x20 1 ;;
    (if SEARCH_FAST_Z cfg >? SEARCH_FEEDRATE_Z cfg then
       let t := set_axis Axis.Z (-1000000) t in
       let t := set_F (SEARCH_FEEDRATE_Z cfg) t in
       enqueue_home t 0x20 0
     else ret tt) ;;
    queue_wait ;;
    store_position Axis.Z (double_to_Z (z_max * 1000)%float) ;;
    dda_new_startpoint
  | _, _ => ret tt
  end.

(** find U MIN endstop *)
Definition home_u_negative : state world unit :=
  if U_MIN_PIN cfg then
    t <- read_startpoint ;;
    let t := set_axis Axis.U (-1000000) t in
    let t := if SEARCH_FAST_U cfg >? SEARCH_FEEDRATE_U cfg
             then set_F (SEARCH_FAST_U cfg) t
             else set_F (SEARCH_FEEDRATE_U cfg) t in
    enqueue_home t 0x10 1 ;;
    (if SEARCH_FAST_U cfg >? SEARCH_FEEDRATE_U cfg then
       let t := set_axis Axis.U 1000000 t in
       let t := set_F (SEARCH_FEEDRATE_U cfg) t in
       enqueue_home t 0x10 0
     else ret tt) ;;
    queue_wait ;;
    match U_MIN cfg with
    | Some u_min => store_position Axis.U (double_to_Z (u_min * 1000)%float)
    | None => store_position Axis.U 0
    end ;;
    dda_new_startpoint
  else ret tt.

(** find U MAX endstop *)
Definition home_u_positive : state world unit :=
  match U_MAX_PIN cfg, U_MAX cfg with
  | true, Some u_max =>
    t <- read_startpoint ;;
    let t := set_axis Axis.U 1000000 t in
    let t := if SEARCH_FAST_U cfg >? SEARCH_FEEDRATE_U cfg
             then set_F (SEARCH_FAST_U cfg) t
             else set_F (SEARCH_FEEDRATE_U cfg) t in
    enqueue_home t 0x20 1 ;;
    (if SEARCH_FAST_U cfg >? SEARCH_FEEDRATE_U cfg then
       let t := set_axis Axis.U (-1000000) t in
       let t := set_F (SEARCH_FEEDRATE_U cfg) t in
       enqueue_home t 0x20 0
     else ret tt) ;;
    queue_wait ;;
    store_position Axis.U (double_to_Z (u_max * 1000)%float) ;;
    dda_new_startpoint
  | _, _ => ret tt
  end.

(** home all 4 axes *)
Definition home : state world unit :=
  (if X_MIN_PIN cfg then home_x_negative
   else if X_MAX_PIN cfg then home_x_positive else ret tt) ;;
  (if Y_MIN_PIN cfg then home_y_negative
   else if Y_MAX_PIN cfg then home_y_positive else ret tt) ;;
  (if Z_MIN_PIN cfg then home_z_negative
   else if Z_MAX_PIN cfg then home_z_positive else ret tt) ;;
  (if U_MIN_PIN cfg then home_u_negative
   else if U_MAX_PIN cfg then home_u_positive else ret tt).

End Routines.

(** ** The routines as a family *)

Inductive routine : Set :=
| X_negative | X_positive | Y_negative | Y_positive
| Z_negative | Z_positive | U_negative | U_positive.

Definition run (api : queue_api) (cfg : config) (r : routine) : state world unit :=
  match r with
  | X_negative => home_x_negative api cfg | X_positive => home_x_positive api cfg
  | Y_negative => home_y_negative api cfg | Y_positive => home_y_positive api cfg
  | Z_negative => home_z_negative api cfg | Z_positive => home_z_positive api cfg
  | U_negative => home_u_negative api cfg | U_positive => home_u_positive api cfg
  end.

(** The axis a routine is named after, and whether it searches the MAX
    endstop. *)
Definition axis_of (r : routine) : Axis.t :=
  match r with
  | X_negative | X_positive => Axis.X
  | Y_negative | Y_positive => Axis.Y
  | Z_negative | Z_positive => Axis.Z
  | U_negative | U_positive => Axis.U
  end.

Definition positive_of (r : routine) : bool :=
  match r with
  | X_positive | Y_positive | Z_positive | U_positive => true
  | _ => false
  end.

Definition is_some {A : Type} (o : option A) : bool :=
  match o with Some _ => true | None => false end.

(** Whether the body of the routine is compiled in. *)
Definition built (cfg : config) (r : routine) : bool :=
  match r with
  | X_negative => X_MIN_PIN cfg
  | X_positive => X_MAX_PIN cfg && is_some (X_MAX cfg)
  | Y_negative => Y_MIN_PIN cfg
  | Y_positive => Y_MAX_PIN cfg && is_some (Y_MAX cfg)
  | Z_negative => Z_MIN_PIN cfg
  | Z_positive => Z_MAX_PIN cfg && is_some (Z_MAX cfg)
  | U_negative => U_MIN_PIN cfg
  | U_positive => U_MAX_PIN cfg && is_some (U_MAX cfg)
  end.

Definition search_fast (cfg : config) (a : Axis.t) : Z :=
  match a with
  | Axis.X => SEARCH_FAST_X cfg | Axis.Y => SEARCH_FAST_Y cfg
  | Axis.Z => SEARCH_FAST_Z cfg | Axis.U => SEARCH_FAST_U cfg
  | Axis.E => 0
  end.

Definition search_feedrate (cfg : config) (a : Axis.t) : Z :=
  match a with
  | Axis.X => SEARCH_FEEDRATE_X cfg | Axis.Y => SEARCH_FEEDRATE_Y cfg
  | Axis.Z => SEARCH_FEEDRATE_Z cfg | Axis.U => SEARCH_FEEDRATE_U cfg
  | Axis.E => 0
  end.

(** The configured limit the routine homes to, in millimetres. *)
Definition limit_of (cfg : config) (r : routine) : option float :=
  match r with
  | X_negative => X_MIN cfg | X_positive => X_MAX cfg
  | Y_negative => Y_MIN cfg | Y_positive => Y_MAX cfg
  | Z_negative => Z_MIN cfg | Z_positive => Z_MAX cfg
  | U_negative => U_MIN cfg | U_positive => U_MAX cfg
  end.

Definition home_coordinate (cfg : config) (r : routine) : Z :=
  match limit_of cfg r with
  | Some mm => double_to_Z (mm * 1000)%float
  | None => 0
  end.

(** The constant each routine passes as [endstop_check]. *)
Definition passed_endstop_check (r : routine) : Z :=
  match r with
  | X_negative => 0x01 | X_positive => 0x02
  | Y_negative => 0x04 | Y_positive => 0x08
  | Z_negative => 0x10 | Z_positive => 0x20
  | U_negative => 0x10 | U_positive => 0x20
  end.

(** The homing moves of a routine that starts at [t0]: towards the endstop
    first, and back at the search feedrate if the approach was fast. *)
Definition homing_moves (cfg : config) (r : routine) (t0 : TARGET) : list event :=
  let a := axis_of r in
  let toward := if positive_of r then 1000000 else -1000000 in
  let fast := search_fast cfg a in
  let slow := search_feedrate cfg a in
  if fast >? slow then
    [ Enqueue_home (set_F fast (set_axis a toward t0)) (passed_endstop_check r) 1;
      Enqueue_home (set_F slow (set_axis a (- toward) t0)) (passed_endstop_check r) 0 ]
  else
    [ Enqueue_home (set_F slow (set_axis a toward t0)) (passed_endstop_check r) 1 ].

(** The [endstop_check] arguments of the [enqueue_home] calls in a trace. *)
Definition endstop_checks (tr : list event) : list Z :=
  flat_map (fun e => match e with
                     | Enqueue_home _ endstop_check _ => [endstop_check]
                     | _ => []
                     end) tr.

(** ** The documented interface *)

(** Endstop mask layout: bit 0 = X-, 1 = X+, 2 = Y-, 3 = Y+, 4 = Z-,
    5 = Z+, and so on in axis order. *)
Definition axis_index (a : Axis.t) : Z :=
  match a with
  | Axis.X => 0 | Axis.Y => 1 | Axis.Z => 2 | Axis.U => 3 | Axis.E => 4
  end.

Definition endstop_bit (a : Axis.t) (positive : bool) : Z :=
  Z.shiftl 1 (2 * axis_index a + (if positive then 1 else 0)).

(** The fast search feedrate as a formula on floating point numbers, and
    the same quantity in exact arithmetic for whole-number settings: the
    integer part of [60 * sqrt (2 * a * c / 1000)] is the integer square
    root of the integer part of [3600 * 2 * a * c / 1000]. *)
Definition search_fast_formula (acceleration clearance : float) : Z :=
  double_to_Z (60 * PrimFloat.sqrt (2 * acceleration * clearance / 1000))%float.

Definition search_fast_exact (acceleration clearance : Z) : Z :=
  Z.sqrt (3600 * (2 * acceleration * clearance) / 1000).

(** What home.c relies on when it writes the position after [queue_wait]:
    queueing a homing move keeps every component of [startpoint] on which
    the move's target agrees with it, and waiting for the queue and
    [dda_new_startpoint] do not alter [startpoint]. *)
Definition keeps_startpoint (api : queue_api) : Prop :=
  (forall t check cond g a,
      axis t a = axis (startpoint g) a ->
      axis (startpoint (enqueue_home_effect api t check cond g)) a
      = axis (startpoint g) a) /\
  (forall g, startpoint (queue_wait_effect api g) = startpoint g) /\
  (forall g, startpoint (dda_new_startpoint_effect api g) = startpoint g).

(** ** Sample configurations and states *)

(** A queue in which planning a move makes its target the start of the
    next one. *)
Definition chaining_queue : queue_api :=
  {| enqueue_home_effect := fun t _ _ g =>
       {| startpoint := t; next_target_target := next_target_target g |};
     queue_wait_effect := fun g => g;
     dda_new_startpoint_effect := fun g => g |}.

(** All endstops fitted; ACCELERATION 1000, clearance 5 and search
    feedrate [slow] on every axis. *)
Definition all_endstops (slow : Z) : config :=
  {| ACCELERATION := 1000;
     X_MIN_PIN := true; X_MAX_PIN := true; Y_MIN_PIN := true; Y_MAX_PIN := true;
     Z_MIN_PIN := true; Z_MAX_PIN := true; U_MIN_PIN := true; U_MAX_PIN := true;
     SEARCH_FEEDRATE_X := slow; SEARCH_FEEDRATE_Y := slow;
     SEARCH_FEEDRATE_Z := slow; SEARCH_FEEDRATE_U := slow;
     ENDSTOP_CLEARANCE_X := 5; ENDSTOP_CLEARANCE_Y := 5;
     ENDSTOP_CLEARANCE_Z := 5; ENDSTOP_CLEARANCE_U := 5;
     X_MIN := Some 12.5%float; X_MAX := Some 200%float;
     Y_MIN := None; Y_MAX := Some 200%float;
     Z_MIN := Some 0%float; Z_MAX := Some 140%float;
     U_MIN := None; U_MAX := Some 90%float |}.

Definition somewhere : world :=
  {| mem := {| startpoint := {| axis_X := 11000; axis_Y := 22000; axis_Z := 33000;
                               axis_U := 44000; axis_E := 55000; F := 600 |};
               next_target_target := {| axis_X := 11000; axis_Y := 22000;
                                        axis_Z := 33000; axis_U := 44000;
                                        axis_E := 55000; F := 600 |} |};
     trace := [] |}.

End Home.

(** * timer-avr.c: system clock, initialisation and stop *)

Module Clock.
Import Timer.

(** Bit numbers of TCCR1B and TIMSK1 (avr/io.h). *)
Definition CS10 : Z := 0.
Definition OCIE1B : Z := 2.

(** The registers of the step timer together with the remaining timer-1
    registers the file writes. *)
Record mcu : Set := {
  step : avr;
  OCR1B : Z;      (* uint16_t, comparator B *)
  TCCR1A : Z;     (* uint8_t *)
  TCCR1B : Z      (* uint8_t *)
}.

Definition set_step (v : avr) (m : mcu) : mcu :=
  {| step := v; OCR1B := OCR1B m; TCCR1A := TCCR1A m; TCCR1B := TCCR1B m |}.
Definition set_OCR1B (v : Z) (m : mcu) : mcu :=
  {| step := step m; OCR1B := v; TCCR1A := TCCR1A m; TCCR1B := TCCR1B m |}.
Definition set_TCCR1A (v : Z) (m : mcu) : mcu :=
  {| step := step m; OCR1B := OCR1B m; TCCR1A := v; TCCR1B := TCCR1B m |}.
Definition set_TCCR1B (v : Z) (m : mcu) : mcu :=
  {| step := step m; OCR1B := OCR1B m; TCCR1A := TCCR1A m; TCCR1B := v |}.

(** The machine and [busy], the [static] variable of the comparator-B
    handler.  Being local to the handler, [busy] is out of reach of every
    other function. *)
Record clk : Set := { machine : mcu; busy : Z }.

Definition set_machine (m : mcu) (c : clk) : clk := {| machine := m; busy := busy c |}.
Definition set_busy (v : Z) (c : clk) : clk := {| machine := machine c; busy := v |}.

Definition sei (m : mcu) : mcu := set_step (set_SREG_I true (step m)) m.

Definition system_clock_armed (m : mcu) : bool := Z.testbit (TIMSK1 (step m)) OCIE1B.

Section SystemClock.

(** [TICK_TIME] comes from timer.h. *)
Variable TICK_TIME : Z.

(** [clock_tick()] of clock.c.  It cannot name [busy]. *)
Variable clock_tick : mcu -> mcu.

(** [dda_clock()] of dda.c, together with whatever interrupts are served
    while it runs with interrupts enabled. *)
Variable dda_clock : clk -> clk.

(** [ISR(TIMER1_COMPB_vect)]. *)
Definition ISR_TIMER1_COMPB (c : clk) : clk :=
  let c := set_machine
             (set_OCR1B (Z.land (OCR1B (machine c) + TICK_TIME) 0xFFFF) (machine c)) c in
  let c := set_machine (clock_tick (machine c)) c in
  if busy c =? 0 then
    let c := set_busy 1 c in
    let c := set_machine (sei (machine c)) c in
    let c := dda_clock c in
    set_busy 0 c
  else
    c.

(** [timer_init()] *)
Definition timer_init (m : mcu) : mcu :=
  let m := set_TCCR1A 0 m in
  let m := set_TCCR1B (to_uint8 (MASK CS10)) m in
  let m := set_OCR1B (Z.land TICK_TIME 0xFFFF) m in
  set_step (set_TIMSK1 (to_uint8 (MASK OCIE1B)) (step m)) m.

End SystemClock.

(** [timer_reset()]: nothing on the AVR. *)
Definition timer_reset (m : mcu) : mcu := m.

(** [timer_stop()] *)
Definition timer_stop (m : mcu) : mcu := set_step (set_TIMSK1 0 (step m)) m.

(** [timer_set] and the comparator-A handler act on the step registers. *)
Definition timer_set (cfg : config) (delay check_short : Z) (m : mcu) : Z * mcu :=
  (fst (Timer.timer_set cfg delay check_short (step m)),
   set_step (snd (Timer.timer_set cfg delay check_short (step m))) m).

(** [dda_clock] doing [work] while [n] further comparator-B interrupts are
    served.  Each of them finds [busy] set. *)
Definition interrupted (TICK_TIME : Z) (clock_tick work : mcu -> mcu) (n : nat)
  : clk -> clk :=
  fun c =>
    Nat.iter n (ISR_TIMER1_COMPB TICK_TIME clock_tick (fun c => c))
      (set_machine (work (machine c)) c).

(** *** Sample state *)

Definition power_on : mcu :=
  {| step := {| Timer.OCR1A := 0; TCNT1 := 0; TIMSK1 := 0; SREG_I := false;
                next_step_time := 0 |};
     OCR1B := 0; TCCR1A := 0; TCCR1B := 0 |}.

End Clock.

(** * i2c.c, master mode, write only

    The build without [I2C_SLAVE_MODE], [I2C_READ_SUPPORT] and
    [I2C_EEPROM_SUPPORT]; the file marks the other variants untested. *)

Module I2c.

(** Bits of TWCR, as listed above [ISR(TWI_vect)]. *)
Definition TWINT : Z := 7.
Definition TWEA : Z := 6.
Definition TWSTA : Z := 5.
Definition TWSTO : Z := 4.
Definition TWEN : Z := 2.
Definition TWIE : Z := 0.

Definition I2C_MODE : Z := 0.

Definition I2C_MODE_MASK : Z := 0x0C.        (* 0b00001100 *)
Definition I2C_MODE_SARP : Z := 0x00.
Definition I2C_MODE_SAWP : Z := 0x04.
Definition I2C_MODE_ENHA : Z := 0x08.
Definition I2C_MODE_BUSY : Z := 0x40.
Definition I2C_INTERRUPTED : Z := 0x80.
Definition I2C_ERROR : Z := 0x01.
Definition I2C_ERROR_LOW_PRIO : Z := 0x20.

(** [(a<<TWINT)|(b<<TWEA)|(c<<TWSTA)|(d<<TWSTO)|(e<<TWEN)|(f<<TWIE)] *)
Definition twcr (twint twea twsta twsto twen twie : Z) : Z :=
  Z.lor (Z.shiftl twint TWINT)
    (Z.lor (Z.shiftl twea TWEA)
       (Z.lor (Z.shiftl twsta TWSTA)
          (Z.lor (Z.shiftl twsto TWSTO)
             (Z.lor (Z.shiftl twen TWEN) (Z.shiftl twie TWIE))))).

(** [TWSR & TW_STATUS_MASK], by the names of util/twi.h that the handler
    switches on; [TW_other] stands for every status that reaches
    [default]. *)
Inductive tw_status : Set :=
| TW_START | TW_REP_START | TW_MT_SLA_ACK | TW_MT_DATA_ACK
| TW_BUS_ERROR | TW_MT_SLA_NACK | TW_MT_DATA_NACK | TW_MT_ARB_LOST
| TW_other.

(** The macros of ringbuffer.h, applied to the buffer [send]. *)
Class RingBuffer (B : Type) : Type := {
  buf_canread : B -> bool;
  buf_canwrite : B -> bool;
  buf_push : Z -> B -> B;
  buf_pop : B -> Z * B
}.

(** A buffer that hands out its contents first in, first out, and takes
    up to [capacity] bytes. *)
Record fifo_laws {B : Type} `{RingBuffer B} (contents : B -> list Z) (capacity : nat)
  : Prop := {
  canread_spec : forall b, buf_canread b = negb (Nat.eqb (length (contents b)) 0);
  canwrite_spec : forall b, buf_canwrite b = Nat.ltb (length (contents b)) capacity;
  push_spec : forall b x, contents (buf_push x b) = contents b ++ [x];
  pop_spec : forall b x l,
      contents b = x :: l -> fst (buf_pop b) = x /\ contents (snd (buf_pop b)) = l
}.

Section Driver.

Context {B : Type} `{RingBuffer B}.

(** [F_CPU] and [I2C_BITRATE] of the configuration. *)
Variables F_CPU I2C_BITRATE : Z.

Record twi : Type := {
  i2c_address : Z;       (* uint8_t *)
  i2c_state : Z;         (* volatile uint8_t *)
  i2c_should_end : Z;    (* volatile uint8_t *)
  send : B;              (* sendhead, sendtail, sendbuf *)
  TWDR : Z; TWCR : Z; TWBR : Z; TWSR : Z
}.

Definition set_i2c_address (v : Z) (s : twi) : twi :=
  {| i2c_address := v; i2c_state := i2c_state s; i2c_should_end := i2c_should_end s;
     send := send s; TWDR := TWDR s; TWCR := TWCR s; TWBR := TWBR s; TWSR := TWSR s |}.
Definition set_i2c_state (v : Z) (s : twi) : twi :=
  {| i2c_address := i2c_address s; i2c_state := v; i2c_should_end := i2c_should_end s;
     send := send s; TWDR := TWDR s; TWCR := TWCR s; TWBR := TWBR s; TWSR := TWSR s |}.
Definition set_i2c_should_end (v : Z) (s : twi) : twi :=
  {| i2c_address := i2c_address s; i2c_state := i2c_state s; i2c_should_end := v;
     send := send s; TWDR := TWDR s; TWCR := TWCR s; TWBR := TWBR s; TWSR := TWSR s |}.
Definition set_send (v : B) (s : twi) : twi :=
  {| i2c_address := i2c_address s; i2c_state := i2c_state s;
     i2c_should_end := i2c_should_end s;
     send := v; TWDR := TWDR s; TWCR := TWCR s; TWBR := TWBR s; TWSR := TWSR s |}.
Definition set_TWDR (v : Z) (s : twi) : twi :=
  {| i2c_address := i2c_address s; i2c_state := i2c_state s;
     i2c_should_end := i2c_should_end s;
     send := send s; TWDR := v; TWCR := TWCR s; TWBR := TWBR s; TWSR := TWSR s |}.
Definition set_TWCR (v : Z) (s : twi) : twi :=
  {| i2c_address := i2c_address s; i2c_state := i2c_state s;
     i2c_should_end := i2c_should_end s;
     send := send s; TWDR := TWDR s; TWCR := v; TWBR := TWBR s; TWSR := TWSR s |}.
Definition set_TWBR (v : Z) (s : twi) : twi :=
  {| i2c_address := i2c_address s; i2c_state := i2c_state s;
     i2c_should_end := i2c_should_end s;
     send := send s; TWDR := TWDR s; TWCR := TWCR s; TWBR := v; TWSR := TWSR s |}.
Definition set_TWSR (v : Z) (s : twi) : twi :=
  {| i2c_address := i2c_address s; i2c_state := i2c_state s;
     i2c_should_end := i2c_should_end s;
     send := send s; TWDR := TWDR s; TWCR := TWCR s; TWBR := TWBR s; TWSR := v |}.

(** [buf_pop(send, TWDR)] *)
Definition pop_to_TWDR (s : twi) : twi :=
  set_send (snd (buf_pop (send s))) (set_TWDR (fst (buf_pop (send s))) s).

(** [i2c_init(address)], [I2C_MASTER_MODE] without [I2C_ENABLE_PULLUPS].
    While a transmission is going on the function waits for the interrupt
    handler; [None] stands for such a call.  [F_CPU] is an [unsigned long]
    constant. *)
Definition i2c_init (address : Z) (s : twi) : option twi :=
  if negb (Z.land (i2c_state s) I2C_MODE_BUSY =? 0) then None
  else
    let s := set_i2c_address address s in
    let s := set_TWBR (to_uint8 (to_uint32 (F_CPU / I2C_BITRATE - 16) / 2)) s in
    Some (set_TWSR 0x00 s).

(** [i2c_busy()] *)
Definition i2c_busy (s : twi) : Z := Z.land (i2c_state s) I2C_MODE_BUSY.

(** [i2c_write(data, last_byte)].  [None] stands for a call that has to
    wait for the interrupt handler to end the previous transmission or to
    make room in the buffer. *)
Definition i2c_write (data last_byte : Z) (s : twi) : option twi :=
  if negb (Z.land (i2c_state s) I2C_ERROR =? 0) then
    if negb (last_byte =? 0) then
      Some (set_i2c_state (to_uint8 (Z.land (i2c_state s) (Z.lnot I2C_ERROR))) s)
    else Some s
  else if negb (i2c_should_end s =? 0) || negb (buf_canwrite (send s)) then None
  else
    let s :=
      if Z.land (i2c_state s) I2C_MODE_BUSY =? 0 then
        let s := set_i2c_state I2C_MODE_SAWP s in
        let s := set_TWCR (twcr 1 0 1 0 1 1) s in
        set_i2c_state (Z.lor (i2c_state s) I2C_MODE_BUSY) s
      else s in
    let s := set_send (buf_push data (send s)) s in
    Some (set_i2c_should_end last_byte s).

(** [while (buf_canread(send)) { buf_pop(send, TWDR); }] *)
Fixpoint drain (fuel : nat) (s : twi) : option twi :=
  if buf_canread (send s) then
    match fuel with
    | O => None
    | S fuel' => drain fuel' (pop_to_TWDR s)
    end
  else Some s.

(** [ISR(TWI_vect)] for the status read from TWSR. *)
Definition ISR_TWI (fuel : nat) (status : tw_status) (s : twi) : option twi :=
  match status with
  | TW_START =>
      let s :=
        if Z.land (i2c_state s) I2C_MODE_MASK =? I2C_MODE_SARP
        then set_i2c_address (Z.lor (i2c_address s) 0x01) s
        else set_i2c_address (Z.land (i2c_address s) 0xFE) s in
      let s := set_TWDR (i2c_address s) s in
      Some (set_TWCR (twcr 1 I2C_MODE 0 0 1 1) s)
  | TW_REP_START =>
      let s :=
        if Z.land (i2c_state s) I2C_MODE_MASK =? I2C_MODE_ENHA
        then set_i2c_address (Z.lor (i2c_address s) 0x01) s
        else set_i2c_address (Z.land (i2c_address s) 0xFE) s in
      let s := set_TWDR (i2c_address s) s in
      Some (set_TWCR (twcr 1 I2C_MODE 0 0 1 1) s)
  | TW_MT_SLA_ACK =>
      if (Z.land (i2c_state s) I2C_MODE_MASK =? I2C_MODE_SAWP) && buf_canread (send s)
      then Some (set_TWCR (twcr 1 I2C_MODE 0 0 1 1) (pop_to_TWDR s))
      else Some s
  | TW_MT_DATA_ACK =>
      if Z.land (i2c_state s) I2C_MODE_MASK =? I2C_MODE_SAWP then
        if buf_canread (send s) then
          Some (set_TWCR (twcr 1 I2C_MODE 0 0 1 1) (pop_to_TWDR s))
        else
          let s := set_i2c_state 0 s in
          let s := set_i2c_should_end 0 s in
          Some (set_TWCR (twcr 1 I2C_MODE 0 1 1 0) s)
      else Some s
  | TW_BUS_ERROR | TW_MT_SLA_NACK | TW_MT_DATA_NACK | TW_MT_ARB_LOST =>
      let s := set_i2c_state
                 (Z.lor (i2c_state s) (Z.lor I2C_ERROR I2C_INTERRUPTED)) s in
      let s := set_i2c_should_end 0 s in
      match drain fuel s with
      | Some s => Some (set_TWCR (twcr 1 I2C_MODE 0 1 1 0) s)
      | None => None
      end
  | TW_other => Some s
  end.

(** A run of calls and interrupts, stopped by the first call that has to
    wait. *)
Inductive action : Set :=
| Send (data last_byte : Z)
| Serve (status : tw_status).

Definition perform (fuel : nat) (a : action) (s : twi) : option twi :=
  match a with
  | Send data last_byte => i2c_write data last_byte s
  | Serve status => ISR_TWI fuel status s
  end.

Fixpoint perform_all (fuel : nat) (l : list action) (s : twi) : option twi :=
  match l with
  | [] => Some s
  | a :: rest =>
      match perform fuel a s with
      | Some s' => perform_all fuel rest s'
      | None => None
      end
  end.

End Driver.

(** A transmission under way in write mode: the state as [i2c_write]
    leaves it, with [bytes] waiting in the buffer. *)
Definition queued {B : Type} `{RingBuffer B} (contents : B -> list Z)
    (s : twi) (bytes : list Z) (last_byte address twcr_value : Z) : Prop :=
  i2c_state s = Z.lor I2C_MODE_SAWP I2C_MODE_BUSY /\
  i2c_should_end s = last_byte /\
  contents (send s) = bytes /\
  i2c_address s = address /\ TWCR s = twcr_value.

(** *** A sample buffer: a list of at most [capacity] bytes *)

Definition list_buffer (capacity : nat) : RingBuffer (list Z) :=
  {| buf_canread := fun b => negb (Nat.eqb (length b) 0);
     buf_canwrite := fun b => Nat.ltb (length b) capacity;
     buf_push := fun x b => b ++ [x];
     buf_pop := fun b => match b with
                         | [] => (0, [])
                         | x :: l => (x, l)
                         end |}.

Definition idle_bus : @twi (list Z) :=
  {| i2c_address := 0x78; i2c_state := 0; i2c_should_end := 0; send := [];
     TWDR := 0; TWCR := 0; TWBR := 0; TWSR := 0 |}.

(** In the middle of a transmission, two bytes waiting. *)
Definition mid_transfer : @twi (list Z) :=
  {| i2c_address := 0x78; i2c_state := 0x44; i2c_should_end := 0; send := [0x41; 0x42];
     TWDR := 0x40; TWCR := 0x85; TWBR := 72; TWSR := 0 |}.

End I2c.

(** * home.c: the routines in sequence *)

Module HomeAll.
Import Home.

(** The routine [home()] picks for an axis: the MIN endstop if its pin is
    defined, else the MAX endstop if that pin is defined. *)
Definition choice (min_pin max_pin : bool) (negative positive : routine)
  : list routine :=
  if min_pin then [negative] else if max_pin then [positive] else [].

Definition home_plan (cfg : config) : list routine :=
  choice (X_MIN_PIN cfg) (X_MAX_PIN cfg) X_negative X_positive
  ++ choice (Y_MIN_PIN cfg) (Y_MAX_PIN cfg) Y_negative Y_positive
  ++ choice (Z_MIN_PIN cfg) (Z_MAX_PIN cfg) Z_negative Z_positive
  ++ choice (U_MIN_PIN cfg) (U_MAX_PIN cfg) U_negative U_positive.

(** Routines run one after the other. *)
Definition run_all (api : queue_api) (cfg : config) (rs : list routine) (w : world)
  : world :=
  fold_left (fun w r => execState (run api cfg r) w) rs w.

(** The position a list of routines establishes: each built routine sets
    its axis to its home coordinate. *)
Definition homed_position (cfg : config) (rs : list routine) (t : TARGET) : TARGET :=
  fold_left (fun t r => if built cfg r
                        then set_axis (axis_of r) (home_coordinate cfg r) t
                        else t) rs t.

(** The stores to [startpoint] recorded in a trace. *)
Definition startpoint_stores (tr : list event) : list (Axis.t * Z) :=
  flat_map (fun e => match e with
                     | Store_startpoint a v => [(a, v)]
                     | _ => []
                     end) tr.

(** Whether the endstop pin a routine tests for ([X_MIN_PIN] for
    [home_x_negative], [X_MAX_PIN] for [home_x_positive], ...) is
    defined. *)
Definition pin_defined (cfg : config) (r : routine) : bool :=
  match r with
  | X_negative => X_MIN_PIN cfg | X_positive => X_MAX_PIN cfg
  | Y_negative => Y_MIN_PIN cfg | Y_positive => Y_MAX_PIN cfg
  | Z_negative => Z_MIN_PIN cfg | Z_positive => Z_MAX_PIN cfg
  | U_negative => U_MIN_PIN cfg | U_positive => U_MAX_PIN cfg
  end.

(** No endstop at all. *)
Definition no_endstops : config :=
  {| ACCELERATION := 1000;
     X_MIN_PIN := false; X_MAX_PIN := false; Y_MIN_PIN := false; Y_MAX_PIN := false;
     Z_MIN_PIN := false; Z_MAX_PIN := false; U_MIN_PIN := false; U_MAX_PIN := false;
     SEARCH_FEEDRATE_X := 100; SEARCH_FEEDRATE_Y := 100;
     SEARCH_FEEDRATE_Z := 100; SEARCH_FEEDRATE_U := 100;
     ENDSTOP_CLEARANCE_X := 5; ENDSTOP_CLEARANCE_Y := 5;
     ENDSTOP_CLEARANCE_Z := 5; ENDSTOP_CLEARANCE_U := 5;
     X_MIN := None; X_MAX := None; Y_MIN := None; Y_MAX := None;
     Z_MIN := None; Z_MAX := None; U_MIN := None; U_MAX := None |}.

End HomeAll.

(** * Properties of the step timer *)

Module TimerProofs.
Import Timer.

#[local] Arguments to_uint8 : simpl never.
#[local] Arguments to_uint16 : simpl never.
#[local] Arguments to_uint32 : simpl never.
#[local] Arguments MASK : simpl never.
#[local] Arguments OCIE1A : simpl never.
#[local] Arguments elapsed_plus_safe : simpl never.
#[local] Arguments Z.land : simpl never.
#[local] Arguments Z.lor : simpl never.
#[local] Arguments Z.lnot : simpl never.
#[local] Arguments Z.ltb : simpl never.
#[local] Arguments Z.gtb : simpl never.
#[local] Arguments Z.testbit : simpl never.

Ltac mod_lia := Z.div_mod_to_equations; lia.

(** Closes range facts about concrete states by evaluation. *)
Ltac by_eval := repeat split; vm_compute; (reflexivity || discriminate).

Lemma land_0xFFFF (x : Z) : Z.land x 0xFFFF = x mod 65536.
Proof. change 0xFFFF with (Z.ones 16). now rewrite Z.land_ones by lia. Qed.

Lemma to_uint32_small (x : Z) : 0 <= x < 2 ^ 32 -> to_uint32 x = x.
Proof. intros H. unfold to_uint32. now apply Z.mod_small. Qed.

Lemma to_uint16_small (x : Z) : 0 <= x < 65536 -> to_uint16 x = x.
Proof. intros H. unfold to_uint16. apply Z.mod_small. lia. Qed.

(** Bits of an 8-bit register value. *)
Lemma uint8_bits_high (m i : Z) : 0 <= m < 256 -> 8 <= i -> Z.testbit m i = false.
Proof.
  intros Hm Hi. rewrite <- (Z.mod_small m (2 ^ 8)) by lia.
  apply Z.mod_pow2_bits_high. lia.
Qed.

Lemma to_uint8_bits (a i : Z) :
  Z.testbit (to_uint8 a) i = if i <? 8 then Z.testbit a i else false.
Proof.
  unfold to_uint8. destruct (Z.ltb_spec i 8) as [Hlt | Hge].
  - apply Z.mod_pow2_bits_low. exact Hlt.
  - apply Z.mod_pow2_bits_high. lia.
Qed.

Lemma MASK_bits (b i : Z) : 0 <= b -> Z.testbit (MASK b) i = (b =? i).
Proof.
  intros Hb. unfold MASK. rewrite Z.shiftl_1_l. now apply Z.pow2_bits_eqb.
Qed.

(** [TIMSK1 |= MASK(OCIE1A)] sets bit OCIE1A and no other. *)
Lemma arm_bits (m i : Z) :
  0 <= m < 256 ->
  Z.testbit (to_uint8 (Z.lor m (MASK OCIE1A))) i
  = if i =? OCIE1A then true else Z.testbit m i.
Proof.
  intros Hm. rewrite to_uint8_bits, Z.lor_spec, MASK_bits by (unfold OCIE1A; lia).
  rewrite (Z.eqb_sym OCIE1A i).
  destruct (Z.eqb_spec i OCIE1A) as [-> | Hne].
  - now rewrite orb_true_r.
  - rewrite orb_false_r. destruct (Z.ltb_spec i 8) as [Hlt | Hge]; [reflexivity|].
    symmetry. now apply uint8_bits_high.
Qed.

(** [TIMSK1 &= ~MASK(OCIE1A)] clears bit OCIE1A and no other. *)
Lemma disarm_bits (m i : Z) :
  0 <= m < 256 ->
  Z.testbit (to_uint8 (Z.land m (Z.lnot (MASK OCIE1A)))) i
  = if i =? OCIE1A then false else Z.testbit m i.
Proof.
  intros Hm. rewrite to_uint8_bits.
  destruct (Z.eqb_spec i OCIE1A) as [-> | Hne].
  - change (OCIE1A <? 8) with true. cbv iota.
    rewrite Z.land_spec, Z.lnot_spec, MASK_bits by (unfold OCIE1A; lia).
    now rewrite Z.eqb_refl, andb_false_r.
  - destruct (Z.ltb_spec i 8) as [Hlt | Hge].
    + destruct (Z.neg_nonneg_cases i) as [Hneg | Hnn].
      * now rewrite !Z.testbit_neg_r.
      * rewrite Z.land_spec, Z.lnot_spec, MASK_bits by (unfold OCIE1A; lia || assumption).
        rewrite (Z.eqb_sym OCIE1A i).
        destruct (Z.eqb_spec i OCIE1A); [contradiction|]. apply andb_true_r.
    + symmetry. now apply uint8_bits_high.
Qed.

(** *** Return value of [timer_set] *)

Lemma timer_set_flag (cfg : config) (delay cs : Z) (s : avr) :
  fst (timer_set cfg delay cs s)
  = if ACCELERATION_TEMPORAL cfg && negb (cs =? 0)
       && (elapsed_plus_safe (target cfg) (TCNT1 s) (OCR1A s) >? delay)
    then 1 else 0.
Proof.
  unfold timer_set. cbn.
  now destruct (ACCELERATION_TEMPORAL cfg && negb (cs =? 0)
                && (elapsed_plus_safe (target cfg) (TCNT1 s) (OCR1A s) >? delay)).
Qed.

Lemma timer_set_unchecked (cfg : config) (delay : Z) (s : avr) :
  fst (timer_set cfg delay 0 s) = 0.
Proof. rewrite timer_set_flag. cbn. now rewrite andb_false_r. Qed.

(** The state left behind by an early return. *)
Lemma timer_set_short_state (cfg : config) (delay cs : Z) (s : avr) :
  fst (timer_set cfg delay cs s) = 1 ->
  snd (timer_set cfg delay cs s) = set_next_step_time (to_uint32 delay) (cli s).
Proof.
  unfold timer_set. cbn.
  destruct (ACCELERATION_TEMPORAL cfg && negb (cs =? 0)
            && (elapsed_plus_safe (target cfg) (TCNT1 s) (OCR1A s) >? delay)).
  - reflexivity.
  - cbn. discriminate.
Qed.

(** The state left behind when the interrupt is scheduled. *)
Lemma timer_set_scheduled_state (cfg : config) (delay cs : Z) (s : avr) :
  fst (timer_set cfg delay cs s) = 0 ->
  snd (timer_set cfg delay cs s) = snd (timer_set cfg delay 0 s).
Proof.
  unfold timer_set. cbn.
  destruct (ACCELERATION_TEMPORAL cfg && negb (cs =? 0)
            && (elapsed_plus_safe (target cfg) (TCNT1 s) (OCR1A s) >? delay)).
  - cbn. discriminate.
  - intros _. now rewrite andb_false_r.
Qed.

Lemma timer_set_direct (cfg : config) (delay : Z) (s : avr) :
  0 <= delay < 65536 ->
  OCR1A (snd (timer_set cfg delay 0 s)) = (OCR1A s + delay) mod 65536.
Proof.
  intros Hd. unfold timer_set. cbn. rewrite andb_false_r.
  rewrite to_uint32_small by lia.
  destruct (Z.ltb_spec delay 65536) as [_ | Hge]; [|lia].
  cbn. rewrite land_0xFFFF. f_equal. lia.
Qed.

Lemma timer_set_arms (cfg : config) (delay cs : Z) (s : avr) :
  wf s ->
  fst (timer_set cfg delay cs s) = 0 ->
  step_interrupt_armed (snd (timer_set cfg delay cs s)) = true.
Proof.
  intros (_ & _ & Hm & _) H0. rewrite (timer_set_scheduled_state _ _ _ _ H0).
  unfold timer_set, step_interrupt_armed. cbn. rewrite andb_false_r.
  destruct (to_uint32 delay <? 65536); [|destruct (to_uint32 delay <? 75536)];
    cbn; now rewrite arm_bits.
Qed.

Lemma wf_set_TCNT1 (now : Z) (s : avr) :
  0 <= now < 65536 -> wf s -> wf (set_TCNT1 now s).
Proof. unfold wf. cbn. tauto. Qed.

(** [timer_set] keeps all registers within their width. *)
Lemma timer_set_wf (cfg : config) (delay cs : Z) (s : avr) :
  wf s -> wf (snd (timer_set cfg delay cs s)).
Proof.
  intros (Ho & Ht & Hm & Hn).
  assert (H32 : forall x, 0 <= to_uint32 x < 2 ^ 32)
    by (intros x; unfold to_uint32; apply Z.mod_pos_bound; lia).
  assert (H8 : forall x, 0 <= to_uint8 x < 256)
    by (intros x; unfold to_uint8; apply Z.mod_pos_bound; lia).
  assert (H16 : forall x, 0 <= Z.land x 0xFFFF < 65536)
    by (intros x; rewrite land_0xFFFF; apply Z.mod_pos_bound; lia).
  unfold timer_set, wf. cbn.
  destruct (ACCELERATION_TEMPORAL cfg && negb (cs =? 0)
            && (elapsed_plus_safe (target cfg) (TCNT1 s) (OCR1A s) >? delay)).
  - cbn. auto.
  - destruct (to_uint32 delay <? 65536); [|destruct (to_uint32 delay <? 75536)];
      cbn; auto.
Qed.

(** Compare values add up over a run of steps, whatever the counter read
    at the individual calls. *)
Lemma schedule_steps_anchor (cfg : config) (reqs : list (Z * Z)) :
  Forall (fun r => 0 <= fst r < 65536) reqs ->
  forall s, 0 <= OCR1A s < 65536 ->
    OCR1A (schedule_steps cfg reqs s)
    = (OCR1A s + sumZ (map fst reqs)) mod 65536.
Proof.
  induction 1 as [| [delay now] rest Hd _ IH]; intros s Ho; cbn [schedule_steps map sumZ fold_right].
  - rewrite Z.add_0_r. symmetry. now apply Z.mod_small.
  - cbn [fst] in Hd. rewrite IH.
    + rewrite timer_set_direct by exact Hd. cbn [set_TCNT1 OCR1A].
      fold (sumZ (map fst rest)). rewrite Zplus_mod_idemp_l. cbn [fst]. f_equal. lia.
    + rewrite timer_set_direct by exact Hd. apply Z.mod_pos_bound. lia.
Qed.

(** C3, as the code has it.  Scheduler anchor: for a delay below the
    counter range, [timer_set], whenever it schedules the interrupt,
    programs OCR1A to the previous compare value plus the delay, modulo
    65536.  It always schedules for [check_short = 0] and in builds without
    ACCELERATION_TEMPORAL.  The value does not depend on what the counter
    TCNT1 reads at the call, so the time already spent in the handler does
    not enter the period; over a run of steps scheduled one after the
    other the compare values add up modulo 65536. *)
Theorem scheduler_anchor :
  forall (cfg : config) (s : avr) (delay check_short : Z),
    0 <= delay < 65536 ->
    (check_short = 0 \/ ACCELERATION_TEMPORAL cfg = false ->
     fst (timer_set cfg delay check_short s) = 0) /\
    (fst (timer_set cfg delay check_short s) = 0 ->
     OCR1A (snd (timer_set cfg delay check_short s))
     = (OCR1A s + delay) mod 65536) /\
    (forall now : Z,
        fst (timer_set cfg delay check_short (set_TCNT1 now s)) = 0 ->
        OCR1A (snd (timer_set cfg delay check_short (set_TCNT1 now s)))
        = (OCR1A s + delay) mod 65536) /\
    (forall reqs : list (Z * Z),
        Forall (fun r => 0 <= fst r < 65536) reqs ->
        0 <= OCR1A s < 65536 ->
        OCR1A (schedule_steps cfg reqs s)
        = (OCR1A s + sumZ (map fst reqs)) mod 65536).
Proof.
  intros cfg s delay cs Hd. split; [|split; [|split]].
  - intros [-> | Hoff].
    + apply timer_set_unchecked.
    + rewrite timer_set_flag, Hoff. reflexivity.
  - intros H0. rewrite (timer_set_scheduled_state _ _ _ _ H0).
    now apply timer_set_direct.
  - intros now H0. rewrite (timer_set_scheduled_state _ _ _ _ H0).
    now rewrite timer_set_direct.
  - intros reqs Hreqs Ho. now apply schedule_steps_anchor.
Qed.

Lemma scheduler_anchor_witness :
  0 <= 1234 < 65536 /\
  fst (timer_set avr_temporal 1234 1 in_step_isr) = 0 /\
  OCR1A (snd (timer_set avr_temporal 1234 1 in_step_isr)) = 2234.
Proof.
  assert (Hd : 0 <= 1234 < 65536) by lia.
  pose proof (scheduler_anchor avr_temporal in_step_isr 1234 1 Hd) as (_ & H & _).
  split; [exact Hd|]. split; [reflexivity|]. apply H. reflexivity.
Defined.

(** C3 as worded fails when the short-request test intervenes: called
    with [check_short = 1] 300 ticks after the compare event at 1000, a
    request for 400 ticks leaves OCR1A at 1000 instead of programming
    1400. *)
Lemma scheduler_anchor_counterexample :
  0 <= 400 < 65536 /\
  fst (timer_set avr_temporal 400 1 in_step_isr) = 1 /\
  OCR1A (snd (timer_set avr_temporal 400 1 in_step_isr)) = 1000 /\
  (OCR1A in_step_isr + 400) mod 65536 = 1400 /\
  OCR1A (snd (timer_set avr_temporal 400 1 in_step_isr))
  <> (OCR1A in_step_isr + 400) mod 65536.
Proof. by_eval. Qed.

(** C4 against the code.  With ACCELERATION_TEMPORAL and a non-zero
    [check_short], [timer_set] returns 1 only when the 16-bit distance of
    the counter from the anchor plus 200 exceeds [delay], and then leaves
    OCR1A and TIMSK1 as they were.  It does so whenever the sum stays
    within the width of the C expression [(current_time - step_start) +
    200]: below a distance of 65336 on the AVR, and as long as the counter
    has not wrapped since the compare event on the simulator.  Beyond
    that the expression comes out 65536 too low, and every request between
    that value and the true sum is scheduled although it is too short by
    this measure: the compare value is programmed less than 200 ticks
    ahead of the counter, or behind it. *)
Theorem short_request_check_overflow :
  forall (cfg : config) (s : avr) (delay check_short : Z),
    wf s ->
    ACCELERATION_TEMPORAL cfg = true ->
    check_short <> 0 ->
    let gone := to_uint16 (TCNT1 s - OCR1A s) in
    let r := timer_set cfg delay check_short s in
    (fst r = 1 \/ fst r = 0) /\
    (fst r = 1 ->
     gone + 200 > delay /\
     OCR1A (snd r) = OCR1A s /\ TIMSK1 (snd r) = TIMSK1 s /\
     step_interrupt_armed (snd r) = step_interrupt_armed s) /\
    (target cfg = AVR -> gone < 65336 -> gone + 200 > delay -> fst r = 1) /\
    (target cfg = SIMULATOR -> OCR1A s <= TCNT1 s -> gone + 200 > delay -> fst r = 1) /\
    ((target cfg = AVR /\ 65336 <= gone) \/
     (target cfg = SIMULATOR /\ TCNT1 s < OCR1A s) ->
     gone + 200 - 65536 <= delay < gone + 200 ->
     gone + 200 > delay /\
     fst r = 0 /\
     step_interrupt_armed (snd r) = true /\
     (0 <= delay < 65536 ->
      OCR1A (snd r) = (OCR1A s + delay) mod 65536 /\
      (gone < delay ->
       ticks_until_match (TCNT1 s) (OCR1A (snd r)) = delay - gone /\
       delay - gone < 200) /\
      (delay <= gone ->
       ticks_until_match (TCNT1 s) (OCR1A (snd r)) = delay - gone + 65536))).
Proof.
  intros cfg s delay cs Hwf Htemp Hcs gone r.
  pose proof Hwf as (Ho & Ht & _).
  assert (Hgone : 0 <= gone < 65536)
    by (subst gone; unfold to_uint16; apply Z.mod_pos_bound; lia).
  assert (Hflag : fst r = if elapsed_plus_safe (target cfg) (TCNT1 s) (OCR1A s) >? delay
                          then 1 else 0).
  { subst r. rewrite timer_set_flag, Htemp.
    destruct (Z.eqb_spec cs 0) as [E | _]; [contradiction | reflexivity]. }
  assert (Hiff : fst r = 1 <->
                 elapsed_plus_safe (target cfg) (TCNT1 s) (OCR1A s) > delay).
  { rewrite Hflag.
    destruct (Z.gtb_spec (elapsed_plus_safe (target cfg) (TCNT1 s) (OCR1A s)) delay);
      split; intros; (lia || discriminate || reflexivity). }
  assert (Hzero : ~ elapsed_plus_safe (target cfg) (TCNT1 s) (OCR1A s) > delay -> fst r = 0).
  { rewrite Hflag.
    destruct (Z.gtb_spec (elapsed_plus_safe (target cfg) (TCNT1 s) (OCR1A s)) delay);
      intros; (lia || reflexivity). }
  assert (Hvalue : elapsed_plus_safe (target cfg) (TCNT1 s) (OCR1A s)
                   = match target cfg with
                     | AVR => if gone <? 65336 then gone + 200 else gone + 200 - 65536
                     | SIMULATOR =>
                         if OCR1A s <=? TCNT1 s then gone + 200 else gone + 200 - 65536
                     end).
  { unfold elapsed_plus_safe. fold gone. destruct (target cfg).
    - unfold to_uint16. destruct (Z.ltb_spec gone 65336); mod_lia.
    - subst gone. unfold to_uint16. destruct (Z.leb_spec (OCR1A s) (TCNT1 s)); mod_lia. }
  split; [|split; [|split; [|split]]].
  - rewrite Hflag.
    destruct (elapsed_plus_safe (target cfg) (TCNT1 s) (OCR1A s) >? delay); auto.
  - intros H1. split.
    + apply Hiff in H1. rewrite Hvalue in H1.
      destruct (target cfg);
        [destruct (gone <? 65336) | destruct (OCR1A s <=? TCNT1 s)]; lia.
    + subst r. rewrite (timer_set_short_state _ _ _ _ H1).
      unfold step_interrupt_armed. cbn. auto.
  - intros Hp Hsmall Hshort. apply Hiff. rewrite Hvalue, Hp.
    destruct (Z.ltb_spec gone 65336); lia.
  - intros Hp Hle Hshort. apply Hiff. rewrite Hvalue, Hp.
    destruct (Z.leb_spec (OCR1A s) (TCNT1 s)); lia.
  - intros Hwrap Hd.
    assert (H0 : fst r = 0).
    { apply Hzero. rewrite Hvalue.
      destruct Hwrap as [(Hp & Hbig) | (Hp & Hlt)]; rewrite Hp.
      - destruct (Z.ltb_spec gone 65336); lia.
      - destruct (Z.leb_spec (OCR1A s) (TCNT1 s)); lia. }
    split; [lia|]. split; [exact H0|]. split.
    + subst r. now apply timer_set_arms.
    + intros Hdirect. subst r. rewrite (timer_set_scheduled_state _ _ _ _ H0).
      rewrite timer_set_direct by exact Hdirect.
      split; [reflexivity|]. unfold ticks_until_match. subst gone. unfold to_uint16 in *.
      split.
      * intros Hahead.
        replace (((OCR1A s + delay) mod 65536 - TCNT1 s) mod 65536)
          with (delay - (TCNT1 s - OCR1A s) mod 2 ^ 16) by mod_lia.
        destruct (Z.eqb_spec (delay - (TCNT1 s - OCR1A s) mod 2 ^ 16) 0); lia.
      * intros Hbehind.
        destruct (Z.eq_dec delay ((TCNT1 s - OCR1A s) mod 2 ^ 16)) as [E | Hne].
        -- replace (((OCR1A s + delay) mod 65536 - TCNT1 s) mod 65536) with 0 by mod_lia.
           rewrite Z.eqb_refl. lia.
        -- replace (((OCR1A s + delay) mod 65536 - TCNT1 s) mod 65536)
             with (delay - (TCNT1 s - OCR1A s) mod 2 ^ 16 + 65536) by mod_lia.
           destruct (Z.eqb_spec (delay - (TCNT1 s - OCR1A s) mod 2 ^ 16 + 65536) 0); lia.
Qed.

(** The two failing requests: on the AVR 65336 ticks after the compare
    event at 0, a request for 65400 ticks is scheduled 64 ticks ahead of
    the counter; on the simulator 100 ticks after the compare event at
    65500, a request for 150 ticks is scheduled 50 ticks ahead. *)
Lemma short_request_check_overflow_witness :
  (wf sum_wraps /\
   to_uint16 (TCNT1 sum_wraps - OCR1A sum_wraps) + 200 > 65400 /\
   fst (timer_set avr_temporal 65400 1 sum_wraps) = 0 /\
   step_interrupt_armed (snd (timer_set avr_temporal 65400 1 sum_wraps)) = true /\
   OCR1A (snd (timer_set avr_temporal 65400 1 sum_wraps)) = 65400 /\
   ticks_until_match (TCNT1 sum_wraps)
     (OCR1A (snd (timer_set avr_temporal 65400 1 sum_wraps))) = 64) /\
  (wf counter_wrapped /\
   to_uint16 (TCNT1 counter_wrapped - OCR1A counter_wrapped) + 200 > 150 /\
   fst (timer_set sim_temporal 150 1 counter_wrapped) = 0 /\
   step_interrupt_armed (snd (timer_set sim_temporal 150 1 counter_wrapped)) = true /\
   OCR1A (snd (timer_set sim_temporal 150 1 counter_wrapped)) = 114 /\
   ticks_until_match (TCNT1 counter_wrapped)
     (OCR1A (snd (timer_set sim_temporal 150 1 counter_wrapped))) = 50).
Proof.
  assert (Hcs : 1 <> 0) by discriminate.
  split.
  - assert (Hwf : wf sum_wraps) by by_eval.
    pose proof (short_request_check_overflow avr_temporal sum_wraps 65400 1 Hwf eq_refl Hcs)
      as (_ & _ & _ & _ & Hbug).
    destruct Hbug as (Hshort & H0 & Harm & Hprog).
    + left. split; [reflexivity | vm_compute; discriminate].
    + split; vm_compute; (reflexivity || discriminate).
    + destruct Hprog as (Hocr & Hahead & _); [lia|].
      destruct Hahead as (Hticks & _); [vm_compute; reflexivity|].
      split; [exact Hwf|]. split; [exact Hshort|]. split; [exact H0|].
      split; [exact Harm|]. split; [exact Hocr | exact Hticks].
  - assert (Hwf : wf counter_wrapped) by by_eval.
    pose proof (short_request_check_overflow sim_temporal counter_wrapped 150 1 Hwf eq_refl Hcs)
      as (_ & _ & _ & _ & Hbug).
    destruct Hbug as (Hshort & H0 & Harm & Hprog).
    + right. split; [reflexivity | vm_compute; reflexivity].
    + split; vm_compute; (reflexivity || discriminate).
    + destruct Hprog as (Hocr & Hahead & _); [lia|].
      destruct Hahead as (Hticks & _); [vm_compute; reflexivity|].
      split; [exact Hwf|]. split; [exact Hshort|]. split; [exact H0|].
      split; [exact Harm|]. split; [exact Hocr | exact Hticks].
Defined.

(** C9.  Whenever [timer_set] returns 1 it has taken the short-request
    path ([check_short] non-zero, ACCELERATION_TEMPORAL defined) and it
    leaves the global interrupt flag cleared, [next_step_time] overwritten
    with the requested delay (as converted to [uint32_t]), and TIMSK1,
    OCR1A and the counter untouched: no interrupt is scheduled, but the
    software state has changed. *)
Theorem too_short_return_not_atomic :
  forall (cfg : config) (s : avr) (delay check_short : Z),
    fst (timer_set cfg delay check_short s) = 1 ->
    let s' := snd (timer_set cfg delay check_short s) in
    check_short <> 0 /\ ACCELERATION_TEMPORAL cfg = true /\
    SREG_I s' = false /\
    next_step_time s' = to_uint32 delay /\
    (0 <= delay < 2 ^ 31 -> next_step_time s' = delay) /\
    TIMSK1 s' = TIMSK1 s /\
    step_interrupt_armed s' = step_interrupt_armed s /\
    OCR1A s' = OCR1A s /\ TCNT1 s' = TCNT1 s.
Proof.
  intros cfg s delay cs H1 s'. subst s'.
  rewrite (timer_set_short_state _ _ _ _ H1).
  rewrite timer_set_flag in H1.
  destruct (ACCELERATION_TEMPORAL cfg) eqn:Htemp; [|discriminate].
  destruct (Z.eqb_spec cs 0) as [E | Hcs]; [discriminate|].
  unfold step_interrupt_armed. cbn.
  repeat split; auto.
  intros Hd. apply to_uint32_small. lia.
Qed.

Lemma too_short_return_not_atomic_witness :
  fst (timer_set avr_temporal 400 1 in_step_isr) = 1 /\
  SREG_I (snd (timer_set avr_temporal 400 1 in_step_isr)) = false /\
  next_step_time (snd (timer_set avr_temporal 400 1 in_step_isr)) = 400 /\
  next_step_time in_step_isr = 0 /\
  step_interrupt_armed (snd (timer_set avr_temporal 400 1 in_step_isr)) = false.
Proof.
  assert (H1 : fst (timer_set avr_temporal 400 1 in_step_isr) = 1) by reflexivity.
  pose proof (too_short_return_not_atomic avr_temporal in_step_isr 400 1 H1)
    as (_ & _ & HI & _ & Hn & _ & Harm & _).
  split; [exact H1|]. split; [exact HI|]. split; [apply Hn; lia|].
  split; [reflexivity|]. rewrite Harm. reflexivity.
Defined.

(** *** The interrupt handler, branch by branch *)

Section Handler.

Variable queue_step : avr -> avr.

(** State handed to [queue_step] by a real step. *)
Lemma isr_real_step (s : avr) :
  next_step_time s < 65536 ->
  ISR_TIMER1_COMPA queue_step s
  = queue_step (set_TIMSK1 (to_uint8 (Z.land (TIMSK1 s) (Z.lnot (MASK OCIE1A)))) s).
Proof.
  intros Hlt. unfold ISR_TIMER1_COMPA.
  destruct (Z.ltb_spec (next_step_time s) 65536); [reflexivity | lia].
Qed.

(** The three outcomes of a wind-down interrupt, by the time [r] that
    remains after taking off one round of the counter. *)
Lemma isr_wind_down (s : avr) :
  65536 <= next_step_time s < 2 ^ 32 ->
  let r := next_step_time s - 65536 in
  ISR_TIMER1_COMPA queue_step s
  = if r <? 65536 then
      set_OCR1A ((OCR1A s + r) mod 65536) (set_next_step_time r s)
    else if r <? 75536 then
      set_next_step_time (r + 10000)
        (set_OCR1A ((OCR1A s - 10000) mod 65536) (set_next_step_time r s))
    else set_next_step_time r s.
Proof.
  intros Hn r. unfold ISR_TIMER1_COMPA.
  destruct (Z.ltb_spec (next_step_time s) 65536) as [Hlt | _]; [lia|].
  rewrite (to_uint32_small (next_step_time s - 65536)) by lia. fold r.
  cbn [next_step_time set_next_step_time OCR1A set_OCR1A].
  rewrite !land_0xFFFF.
  destruct (Z.ltb_spec r 65536) as [H1 | H1]; [reflexivity|].
  destruct (Z.ltb_spec r 75536) as [H2 | H2]; [|reflexivity].
  rewrite to_uint32_small by lia. reflexivity.
Qed.

End Handler.

(** C10.  A real step ([next_step_time < 65536]) runs [queue_step] on a
    state in which bit OCIE1A of TIMSK1 has been cleared and nothing else
    has changed.  The comparator-A interrupt is therefore enabled after the
    handler only if [queue_step] enabled it, which [timer_set] does
    whenever it schedules; if [queue_step] leaves TIMSK1 alone, as when
    no move is live, the interrupt stays disabled. *)
Theorem real_step_disarms_before_queue_step :
  forall (queue_step : avr -> avr) (s : avr),
    wf s ->
    next_step_time s < 65536 ->
    exists s0 : avr,
      ISR_TIMER1_COMPA queue_step s = queue_step s0 /\
      step_interrupt_armed s0 = false /\
      (forall i, i <> OCIE1A -> Z.testbit (TIMSK1 s0) i = Z.testbit (TIMSK1 s) i) /\
      OCR1A s0 = OCR1A s /\ TCNT1 s0 = TCNT1 s /\ SREG_I s0 = SREG_I s /\
      next_step_time s0 = next_step_time s /\
      step_interrupt_armed (ISR_TIMER1_COMPA queue_step s)
      = step_interrupt_armed (queue_step s0) /\
      ((forall x, TIMSK1 (queue_step x) = TIMSK1 x) ->
       step_interrupt_armed (ISR_TIMER1_COMPA queue_step s) = false) /\
      (forall cfg delay check_short,
          queue_step s0 = snd (timer_set cfg delay check_short s0) ->
          step_interrupt_armed (ISR_TIMER1_COMPA queue_step s)
          = if fst (timer_set cfg delay check_short s0) =? 0 then true else false).
Proof.
  intros qs s Hwf Hlt.
  pose proof Hwf as (Ho & Ht & Hm & Hn).
  exists (set_TIMSK1 (to_uint8 (Z.land (TIMSK1 s) (Z.lnot (MASK OCIE1A)))) s).
  rewrite (isr_real_step qs s Hlt).
  assert (Hoff : step_interrupt_armed
                   (set_TIMSK1 (to_uint8 (Z.land (TIMSK1 s) (Z.lnot (MASK OCIE1A)))) s)
                 = false).
  { unfold step_interrupt_armed. cbn [TIMSK1 set_TIMSK1].
    rewrite disarm_bits by exact Hm. now rewrite Z.eqb_refl. }
  repeat split; try reflexivity; try exact Hoff.
  - intros i Hi. cbn [TIMSK1 set_TIMSK1]. rewrite disarm_bits by exact Hm.
    destruct (Z.eqb_spec i OCIE1A); [contradiction | reflexivity].
  - intros Hkeep. unfold step_interrupt_armed in *. rewrite Hkeep. exact Hoff.
  - intros cfg delay cs Hq. rewrite Hq.
    set (s0 := set_TIMSK1 _ s) in *.
    assert (Hwf0 : wf s0).
    { unfold wf, s0. cbn. repeat split; try lia.
      all: unfold to_uint8; apply Z.mod_pos_bound; lia. }
    pose proof (timer_set_flag cfg delay cs s0) as Hflag.
    destruct (fst (timer_set cfg delay cs s0) =? 0) eqn:E.
    + apply Z.eqb_eq in E. now apply timer_set_arms.
    + apply Z.eqb_neq in E.
      assert (H1 : fst (timer_set cfg delay cs s0) = 1).
      { rewrite Hflag in *.
        destruct (ACCELERATION_TEMPORAL cfg && negb (cs =? 0)
                  && (elapsed_plus_safe (target cfg) (TCNT1 s0) (OCR1A s0) >? delay));
          [reflexivity | contradiction]. }
      rewrite (timer_set_short_state _ _ _ _ H1).
      unfold step_interrupt_armed in *. cbn. exact Hoff.
Qed.

Lemma real_step_disarms_before_queue_step_witness :
  wf (snd (timer_set avr_ramping 1234 0 in_step_isr)) /\
  next_step_time (snd (timer_set avr_ramping 1234 0 in_step_isr)) < 65536 /\
  step_interrupt_armed (snd (timer_set avr_ramping 1234 0 in_step_isr)) = true /\
  step_interrupt_armed
    (ISR_TIMER1_COMPA (fun x => x) (snd (timer_set avr_ramping 1234 0 in_step_isr)))
  = false.
Proof.
  assert (Hwf : wf (snd (timer_set avr_ramping 1234 0 in_step_isr))) by by_eval.
  assert (Hlt : next_step_time (snd (timer_set avr_ramping 1234 0 in_step_isr)) < 65536)
    by by_eval.
  pose proof (real_step_disarms_before_queue_step (fun x => x) _ Hwf Hlt)
    as (s0 & _ & _ & _ & _ & _ & _ & _ & _ & Hidle & _).
  split; [exact Hwf|]. split; [exact Hlt|]. split; [reflexivity|].
  apply Hidle. reflexivity.
Defined.

(** *** Counter ticks from the anchor to the real step *)

Lemma ticks_until_match_same (c : Z) : ticks_until_match c c = 65536.
Proof. unfold ticks_until_match. now rewrite Z.sub_diag. Qed.

Lemma ticks_until_match_back (c : Z) :
  ticks_until_match c ((c - 10000) mod 65536) = 55536.
Proof.
  unfold ticks_until_match.
  replace (((c - 10000) mod 65536 - c) mod 65536) with 55536 by mod_lia.
  reflexivity.
Qed.

Lemma ticks_until_match_ahead (c d : Z) :
  0 < d < 65536 -> ticks_until_match c ((c + d) mod 65536) = d.
Proof.
  intros Hd. unfold ticks_until_match.
  replace (((c + d) mod 65536 - c) mod 65536) with d by mod_lia.
  destruct (Z.eqb_spec d 0); [lia | reflexivity].
Qed.

Lemma sumZ_cons (g : Z) (l : list Z) : sumZ (g :: l) = g + sumZ l.
Proof. reflexivity. Qed.

Section Chain.

Variable queue_step : avr -> avr.

(** A request below the counter range: the next interrupt is the step. *)
Lemma fire_gaps_direct (fuel : nat) (since : Z) (s : avr) :
  next_step_time s < 65536 ->
  fire_gaps queue_step (S fuel) since s = Some [ticks_until_match since (OCR1A s)].
Proof.
  intros Hlt. cbn [fire_gaps].
  destruct (Z.ltb_spec (next_step_time s) 65536); [reflexivity | lia].
Qed.

(** One wind-down interrupt. *)
Lemma fire_gaps_unfold (fuel : nat) (since : Z) (s : avr) :
  65536 <= next_step_time s ->
  fire_gaps queue_step (S fuel) since s
  = option_map (cons (ticks_until_match since (OCR1A s)))
      (fire_gaps queue_step fuel (OCR1A s)
         (ISR_TIMER1_COMPA queue_step (set_TCNT1 (OCR1A s) s))).
Proof.
  intros Hge. cbn [fire_gaps].
  destruct (Z.ltb_spec (next_step_time s) 65536); [lia | reflexivity].
Qed.

(** Less than a round is left after the next interrupt: one wind-down
    interrupt, then the step. *)
Lemma fire_gaps_last_round (fuel : nat) (since : Z) (s : avr) :
  75536 <= next_step_time s < 65536 + 65536 ->
  fire_gaps queue_step (S (S fuel)) since s
  = Some [ticks_until_match since (OCR1A s); next_step_time s - 65536].
Proof.
  intros Hn. rewrite fire_gaps_unfold by lia.
  rewrite isr_wind_down by (cbn; lia). cbn [next_step_time set_TCNT1 OCR1A].
  destruct (Z.ltb_spec (next_step_time s - 65536) 65536) as [_ | H]; [|lia].
  rewrite fire_gaps_direct by (cbn; lia). cbn [option_map OCR1A set_OCR1A].
  rewrite ticks_until_match_ahead by lia. reflexivity.
Qed.

(** With [next_step_time] outside the guard band and beyond the counter
    range, the handler winds it down and the step comes exactly
    [next_step_time - 65536] ticks after the next interrupt; no two
    interrupts on the way are closer than 10000 ticks. *)
Lemma fire_gaps_wind_down :
  forall (fuel : nat) (since : Z) (s : avr),
    75536 <= next_step_time s < 2 ^ 32 ->
    next_step_time s < Z.of_nat fuel * 55536 ->
    exists rest : list Z,
      fire_gaps queue_step fuel since s
      = Some (ticks_until_match since (OCR1A s) :: rest) /\
      rest <> [] /\
      sumZ rest = next_step_time s - 65536 /\
      Forall (fun g => 10000 <= g <= 65536) rest.
Proof.
  induction fuel as [| fuel IH]; intros since s Hn Hfuel; [lia|].
  destruct (Z.lt_ge_cases (next_step_time s) (65536 + 65536)) as [Hlast | Hmore].
  - (* the next interrupt arms the step itself *)
    destruct fuel as [| fuel]; [lia|].
    rewrite fire_gaps_last_round by lia.
    exists [next_step_time s - 65536]. split; [reflexivity|].
    split; [discriminate|]. split; [cbn; lia|].
    constructor; [lia | constructor].
  - rewrite fire_gaps_unfold by lia.
    rewrite isr_wind_down by (cbn; lia). cbn [next_step_time set_TCNT1 OCR1A].
    destruct (Z.ltb_spec (next_step_time s - 65536) 65536) as [H | _]; [lia|].
    destruct (Z.ltb_spec (next_step_time s - 65536) 75536) as [Hguard | Hfar].
    + (* guard band: fire 10000 ticks early, carry them over *)
      edestruct (IH (OCR1A s)) as (rest & Heq & Hne & Hsum & Hall);
        [| | rewrite Heq]; cbn [next_step_time set_next_step_time]; try lia.
      cbn [OCR1A next_step_time set_next_step_time set_OCR1A set_TCNT1] in *.
      rewrite ticks_until_match_back in *.
      eexists. split; [reflexivity|]. split; [discriminate|].
      split; [rewrite sumZ_cons; lia|].
      constructor; [lia | exact Hall].
    + (* a further full round *)
      edestruct (IH (OCR1A s)) as (rest & Heq & Hne & Hsum & Hall);
        [| | rewrite Heq]; cbn [next_step_time set_next_step_time]; try lia.
      cbn [OCR1A next_step_time set_next_step_time set_OCR1A set_TCNT1] in *.
      rewrite ticks_until_match_same in *.
      eexists. split; [reflexivity|]. split; [discriminate|].
      split; [rewrite sumZ_cons; lia|].
      constructor; [lia | exact Hall].
Qed.

(** Every positive request is honoured to the tick, counted from the
    previous compare event. *)
Lemma timer_set_fire_gaps (cfg : config) (delay : Z) (s : avr) (fuel : nat) :
  0 < delay < 2 ^ 31 ->
  delay + 10000 < Z.of_nat fuel * 55536 ->
  exists gaps : list Z,
    fire_gaps queue_step fuel (OCR1A s) (snd (timer_set cfg delay 0 s)) = Some gaps /\
    sumZ gaps = delay /\
    (65536 <= delay -> (2 <= length gaps)%nat /\ Forall (fun g => 10000 <= g) gaps).
Proof.
  intros Hd Hfuel. unfold timer_set. cbn. rewrite andb_false_r. cbn.
  rewrite to_uint32_small by lia. rewrite !land_0xFFFF.
  destruct (Z.ltb_spec delay 65536) as [Hdirect | Hlarge].
  - destruct fuel as [| fuel]; [lia|].
    rewrite fire_gaps_direct by (cbn; lia). cbn [OCR1A set_OCR1A set_TIMSK1].
    replace (delay + OCR1A s) with (OCR1A s + delay) by lia.
    rewrite ticks_until_match_ahead by lia.
    eexists. split; [reflexivity|]. split; [cbn; lia | lia].
  - assert (Hwide : forall rest : list Z,
               rest <> [] -> Forall (fun g => 10000 <= g <= 65536) rest ->
               forall g, 10000 <= g ->
                 (2 <= length (g :: rest))%nat /\ Forall (fun g => 10000 <= g) (g :: rest)).
    { intros rest Hne Hall g Hg. split.
      - destruct rest; [contradiction | cbn; lia].
      - constructor; [exact Hg|]. eapply Forall_impl; [|exact Hall].
        cbn. intros; lia. }
    destruct (Z.ltb_spec delay 75536) as [Hguard | Hfar].
    + rewrite to_uint32_small by (cbn; lia).
      edestruct (fire_gaps_wind_down fuel (OCR1A s)) as (rest & Heq & Hne & Hsum & Hall);
        [| | rewrite Heq]; cbn [next_step_time set_next_step_time set_TIMSK1 set_OCR1A];
        try lia.
      cbn [OCR1A next_step_time set_next_step_time set_TIMSK1 set_OCR1A] in *.
      rewrite ticks_until_match_back in *.
      eexists. split; [reflexivity|]. split; [rewrite sumZ_cons; lia|].
      intros _. apply Hwide; auto. lia.
    + edestruct (fire_gaps_wind_down fuel (OCR1A s)) as (rest & Heq & Hne & Hsum & Hall);
        [| | rewrite Heq]; cbn [next_step_time set_next_step_time set_TIMSK1 set_OCR1A];
        try lia.
      cbn [OCR1A next_step_time set_next_step_time set_TIMSK1 set_OCR1A set_SREG_I cli] in *.
      rewrite ticks_until_match_same in *.
      eexists. split; [reflexivity|]. split; [rewrite sumZ_cons; lia|].
      intros _. apply Hwide; auto. lia.
Qed.

End Chain.

(** Settles comparisons whose outcome follows from the context. *)
Ltac settle_ltb :=
  repeat match goal with
         | |- context [?a <? ?b] =>
             destruct (Z.ltb_spec a b); [try lia | try lia]; []
         end.

Lemma timer_set_far_state (cfg : config) (delay : Z) (s : avr) :
  75536 <= delay < 2 ^ 32 ->
  snd (timer_set cfg delay 0 s)
  = set_TIMSK1 (to_uint8 (Z.lor (TIMSK1 s) (MASK OCIE1A)))
      (set_OCR1A (OCR1A s) (set_next_step_time delay (cli s))).
Proof.
  intros Hd. unfold timer_set. cbn. rewrite andb_false_r. cbn.
  rewrite to_uint32_small by lia. settle_ltb. reflexivity.
Qed.

Lemma timer_set_guard_state (cfg : config) (delay : Z) (s : avr) :
  65536 <= delay < 75536 ->
  snd (timer_set cfg delay 0 s)
  = set_TIMSK1 (to_uint8 (Z.lor (TIMSK1 s) (MASK OCIE1A)))
      (set_next_step_time (delay + 10000)
         (set_OCR1A ((OCR1A s - 10000) mod 65536)
            (set_next_step_time delay (cli s)))).
Proof.
  intros Hd. unfold timer_set. cbn. rewrite andb_false_r. cbn.
  rewrite to_uint32_small by lia. settle_ltb.
  rewrite land_0xFFFF, to_uint32_small by lia. reflexivity.
Qed.

(** *** The first interrupt after a call made while the counter runs *)

(** The compare value is met at its distance from the compare event if
    the call comes before that, and a round later if it comes after. *)
Lemma counter_gap (since now ocr : Z) :
  (now - since) mod 65536 + ticks_until_match now ocr
  = if (now - since) mod 65536 <? ticks_until_match since ocr
    then ticks_until_match since ocr
    else ticks_until_match since ocr + 65536.
Proof.
  unfold ticks_until_match.
  destruct (Z.eqb_spec ((ocr - since) mod 65536) 0) as [E0 | E0];
    destruct (Z.eqb_spec ((ocr - now) mod 65536) 0) as [E1 | E1];
    match goal with
    | |- context [?a <? ?b] => destruct (Z.ltb_spec a b)
    end; mod_lia.
Qed.

Section OnCounterChain.

Variable queue_step : avr -> avr.

(** [gaps_on_counter] differs from [fire_gaps] in the first gap only. *)
Lemma gaps_on_counter_head (fuel : nat) (since : Z) (s : avr) (g : Z) (rest : list Z) :
  fire_gaps queue_step fuel since s = Some (g :: rest) ->
  g = ticks_until_match since (OCR1A s) /\
  gaps_on_counter queue_step fuel since s
  = Some ((if ticks_gone since s <? g then g else g + 65536) :: rest).
Proof.
  destruct fuel as [| fuel]; cbn [fire_gaps gaps_on_counter]; [discriminate|].
  unfold ticks_gone. rewrite counter_gap.
  destruct (next_step_time s <? 65536).
  - intros [= <- <-]. split; reflexivity.
  - destruct (fire_gaps queue_step fuel _ _); cbn [option_map]; [|discriminate].
    intros [= <- <-]. split; reflexivity.
Qed.


(** After [timer_set(delay, 0)]: the distance of the programmed compare
    value from the previous one, and the interrupts up to the step. *)
Lemma timer_set_gaps_on_counter (cfg : config) (delay : Z) (s : avr) (fuel : nat) :
  0 < delay < 2 ^ 31 ->
  delay + 10000 < Z.of_nat fuel * 55536 ->
  let lead := ticks_until_match (OCR1A s) (OCR1A (snd (timer_set cfg delay 0 s))) in
  lead = (if delay <? 65536 then delay else if delay <? 75536 then 55536 else 65536) /\
  exists (g : Z) (rest : list Z),
    fire_gaps queue_step fuel (OCR1A s) (snd (timer_set cfg delay 0 s)) = Some (g :: rest) /\
    gaps_on_counter queue_step fuel (OCR1A s) (snd (timer_set cfg delay 0 s))
    = Some ((if ticks_gone (OCR1A s) s <? lead then lead else lead + 65536) :: rest) /\
    g = lead /\
    sumZ (g :: rest) = delay /\
    (65536 <= delay -> Forall (fun g => 10000 <= g) (g :: rest)).
Proof.
  intros Hd Hfuel lead. split.
  - subst lead.
    destruct (Z.ltb_spec delay 65536) as [Hdirect | Hlarge].
    + rewrite timer_set_direct by lia. apply ticks_until_match_ahead. lia.
    + destruct (Z.ltb_spec delay 75536) as [Hguard | Hfar].
      * rewrite timer_set_guard_state by lia. cbn [OCR1A set_TIMSK1 set_next_step_time set_OCR1A].
        apply ticks_until_match_back.
      * rewrite timer_set_far_state by lia. cbn [OCR1A set_TIMSK1 set_OCR1A].
        apply ticks_until_match_same.
  - destruct (timer_set_fire_gaps queue_step cfg delay s fuel Hd Hfuel)
      as (gaps & Heq & Hsum & Hbig).
    destruct gaps as [| g rest].
    { destruct fuel as [| fuel]; [discriminate|]. cbn [fire_gaps] in Heq.
      destruct (next_step_time _ <? 65536); [discriminate|].
      destruct (fire_gaps queue_step fuel _ _); discriminate. }
    destruct (gaps_on_counter_head _ _ _ _ _ Heq) as (Hg & Hgaps).
    exists g, rest. split; [exact Heq|].
    assert (Hticks : ticks_gone (OCR1A s) (snd (timer_set cfg delay 0 s))
                     = ticks_gone (OCR1A s) s).
    { unfold ticks_gone, timer_set. cbn. rewrite andb_false_r. cbn.
      destruct (to_uint32 delay <? 65536); [|destruct (to_uint32 delay <? 75536)];
        reflexivity. }
    rewrite Hticks in Hgaps. fold lead in Hg. rewrite <- Hg.
    split; [exact Hgaps|]. split; [reflexivity|]. split; [exact Hsum|].
    intros Hlarge. apply Hbig. exact Hlarge.
Qed.

End OnCounterChain.




(** C1, as the code has it.  An interrupt that finds [next_step_time] at
    65536 or more takes no step: its result does not depend on
    [queue_step] and TIMSK1 is left alone.  It takes 65536 off
    [next_step_time]; if what remains lies in the guard band
    [65536, 75536) it adds 10000 back and moves OCR1A back by 10000, and
    if less than 65536 remains it advances OCR1A by the remainder.  An
    interrupt that finds [next_step_time] below 65536 calls [queue_step].
    After [timer_set(delay, 0)] with [delay >= 65536] at least one
    wind-down interrupt precedes the step, and the step comes [delay] ticks
    after the anchor.  For [delay = 3 * 65536 + 1234] there are exactly
    three wind-down interrupts, then the step. *)
Theorem large_delay_wrap :
  forall (queue_step : avr -> avr) (cfg : config) (s : avr),
    (forall x : avr,
        65536 <= next_step_time x < 2 ^ 32 ->
        let r := next_step_time x - 65536 in
        (forall queue_step' : avr -> avr,
            ISR_TIMER1_COMPA queue_step x = ISR_TIMER1_COMPA queue_step' x) /\
        TIMSK1 (ISR_TIMER1_COMPA queue_step x) = TIMSK1 x /\
        next_step_time (ISR_TIMER1_COMPA queue_step x)
        = (if (65536 <=? r) && (r <? 75536) then r + 10000 else r) /\
        OCR1A (ISR_TIMER1_COMPA queue_step x)
        = (if r <? 65536 then (OCR1A x + r) mod 65536
           else if r <? 75536 then (OCR1A x - 10000) mod 65536
           else OCR1A x)) /\
    (forall x : avr,
        next_step_time x < 65536 ->
        ISR_TIMER1_COMPA queue_step x
        = queue_step
            (set_TIMSK1 (to_uint8 (Z.land (TIMSK1 x) (Z.lnot (MASK OCIE1A)))) x)) /\
    (forall (delay : Z) (fuel : nat),
        65536 <= delay < 2 ^ 31 ->
        delay + 10000 < Z.of_nat fuel * 55536 ->
        65536 <= next_step_time (snd (timer_set cfg delay 0 s)) /\
        exists gaps : list Z,
          fire_gaps queue_step fuel (OCR1A s) (snd (timer_set cfg delay 0 s))
          = Some gaps /\
          (2 <= length gaps)%nat /\ sumZ gaps = delay) /\
    (let s0 := snd (timer_set cfg (3 * 65536 + 1234) 0 s) in
     let s1 := ISR_TIMER1_COMPA queue_step s0 in
     let s2 := ISR_TIMER1_COMPA queue_step s1 in
     let s3 := ISR_TIMER1_COMPA queue_step s2 in
     next_step_time s0 = 197842 /\
     next_step_time s1 = 132306 /\
     next_step_time s2 = 76770 /\
     next_step_time s3 = 11234 /\
     OCR1A s3 = (OCR1A s + 1234) mod 65536 /\
     ISR_TIMER1_COMPA queue_step s3
     = queue_step
         (set_TIMSK1 (to_uint8 (Z.land (TIMSK1 s3) (Z.lnot (MASK OCIE1A)))) s3) /\
     fire_gaps queue_step 4 (OCR1A s) s0 = Some [65536; 65536; 55536; 11234]).
Proof.
  intros qs cfg s. split; [|split; [|split]].
  - intros x Hx r. split.
    + intros qs'. now rewrite !isr_wind_down.
    + rewrite isr_wind_down by exact Hx. fold r.
      destruct (Z.ltb_spec r 65536) as [H1 | H1];
        [|destruct (Z.ltb_spec r 75536) as [H2 | H2]];
        destruct (Z.leb_spec 65536 r); try lia; cbn; auto.
  - intros x Hx. now apply isr_real_step.
  - intros delay fuel Hd Hfuel. split.
    + destruct (Z.lt_ge_cases delay 75536).
      * rewrite timer_set_guard_state by lia. cbn. lia.
      * rewrite timer_set_far_state by lia. cbn. lia.
    + destruct (timer_set_fire_gaps qs cfg delay s fuel) as (gaps & Heq & Hsum & Hbig);
        [lia | exact Hfuel |].
      exists gaps. split; [exact Heq|]. split; [apply Hbig; lia | exact Hsum].
  - change (3 * 65536 + 1234) with 197842.
    rewrite timer_set_far_state by lia.
    set (s0 := set_TIMSK1 _ _).
    assert (E1 : ISR_TIMER1_COMPA qs s0 = set_next_step_time 132306 s0).
    { rewrite isr_wind_down by (cbn; lia). cbn [next_step_time s0 set_TIMSK1 set_OCR1A set_next_step_time].
      change (197842 - 65536) with 132306. settle_ltb. reflexivity. }
    assert (E2 : ISR_TIMER1_COMPA qs (set_next_step_time 132306 s0)
                 = set_next_step_time 76770
                     (set_OCR1A ((OCR1A s - 10000) mod 65536)
                        (set_next_step_time 66770 (set_next_step_time 132306 s0)))).
    { rewrite isr_wind_down by (cbn; lia). cbn [next_step_time set_next_step_time].
      change (132306 - 65536) with 66770. settle_ltb. reflexivity. }
    cbv zeta. rewrite E1, E2.
    set (s2 := set_next_step_time 76770 _).
    assert (E3 : ISR_TIMER1_COMPA qs s2
                 = set_OCR1A ((OCR1A s + 1234) mod 65536) (set_next_step_time 11234 s2)).
    { rewrite isr_wind_down by (cbn; lia). cbn [next_step_time s2 set_next_step_time].
      change (76770 - 65536) with 11234. settle_ltb.
      replace (OCR1A s2) with ((OCR1A s - 10000) mod 65536) by reflexivity.
      f_equal. mod_lia. }
    rewrite E3.
    do 5 (split; [reflexivity|]). split.
    + apply isr_real_step. cbn. lia.
    + clear E1 E2 E3. subst s2 s0.
      rewrite fire_gaps_unfold by (cbn; lia).
      cbn [OCR1A set_TIMSK1 set_OCR1A].
      rewrite ticks_until_match_same.
      rewrite isr_wind_down by (cbn; lia).
      cbn [OCR1A next_step_time set_TIMSK1 set_OCR1A set_next_step_time set_TCNT1].
      change (197842 - 65536) with 132306. settle_ltb.
      rewrite fire_gaps_unfold by (cbn; lia).
      cbn [OCR1A next_step_time set_TIMSK1 set_OCR1A set_next_step_time set_TCNT1 option_map].
      rewrite ticks_until_match_same.
      rewrite isr_wind_down by (cbn; lia).
      cbn [OCR1A next_step_time set_TIMSK1 set_OCR1A set_next_step_time set_TCNT1].
      change (132306 - 65536) with 66770. settle_ltb.
      rewrite fire_gaps_last_round by (cbn; lia).
      cbn [OCR1A next_step_time set_TIMSK1 set_OCR1A set_next_step_time set_TCNT1 option_map].
      rewrite ticks_until_match_back. reflexivity.
Qed.

(** The interrupts after [timer_set(3 * 65536 + 1234, 0)] from the anchor
    1000, with a [queue_step] that does nothing. *)
Lemma large_delay_wrap_witness :
  fire_gaps (fun x => x) 4 1000 (snd (timer_set avr_ramping (3 * 65536 + 1234) 0 in_step_isr))
  = Some [65536; 65536; 55536; 11234].
Proof.
  pose proof (large_delay_wrap (fun x => x) avr_ramping in_step_isr)
    as (_ & _ & _ & Hrun).
  cbv zeta in Hrun. apply Hrun.
Defined.

(** C1 as worded fails in its own example: the second interrupt after
    [timer_set(3 * 65536 + 1234, 0)] finds [next_step_time] at 132306 and
    leaves it at 76770, which is 55536 less and not 65536 less, and it
    moves OCR1A. *)
Lemma large_delay_wrap_counterexample :
  65536 <= next_step_time long_wait_1 /\
  next_step_time long_wait_1 = 132306 /\
  next_step_time long_wait_2 = 76770 /\
  next_step_time long_wait_2 <> next_step_time long_wait_1 - 65536 /\
  OCR1A long_wait_1 = 1000 /\ OCR1A long_wait_2 = 56536.
Proof. by_eval. Qed.

End TimerProofs.

(** * Properties of the homing routines *)

Module HomeProofs.
Import Home.

#[local] Arguments double_to_Z : simpl never.
#[local] Arguments Z.gtb : simpl never.
#[local] Arguments SEARCH_FAST_X : simpl never.
#[local] Arguments SEARCH_FAST_Y : simpl never.
#[local] Arguments SEARCH_FAST_Z : simpl never.
#[local] Arguments SEARCH_FAST_U : simpl never.

(** What a built routine is seen to do: its homing moves, the wait, the
    two stores of the home coordinate, the notification. *)
Lemma run_trace (api : queue_api) (cfg : config) (r : routine) (w : world) :
  built cfg r = true ->
  trace (execState (run api cfg r) w)
  = trace w ++ homing_moves cfg r (startpoint (mem w))
    ++ [ Queue_wait;
         Store_next_target (axis_of r) (home_coordinate cfg r);
         Store_startpoint (axis_of r) (home_coordinate cfg r);
         Dda_new_startpoint ].
Proof.
  intros Hbuilt.
  destruct r; cbn [built] in Hbuilt;
    try (apply andb_prop in Hbuilt; destruct Hbuilt as [Hpin Hlim]);
    unfold run, homing_moves, home_coordinate, limit_of,
      home_x_negative, home_x_positive, home_y_negative, home_y_positive,
      home_z_negative, home_z_positive, home_u_negative, home_u_positive;
    cbn [axis_of positive_of search_fast search_feedrate passed_endstop_check].
  all: try rewrite Hbuilt; try rewrite Hpin.
  all: match goal with
       | |- context [match ?lim with Some _ => _ | None => _ end] =>
           destruct lim; try discriminate
       end.
  all: match goal with
       | |- context [?f >? ?s] => destruct (f >? s)
       end.
  all: cbn; rewrite <- ?app_assoc; reflexivity.
Qed.

Lemma axis_set_axis_same (a : Axis.t) (v : Z) (t : TARGET) :
  axis (set_axis a v t) a = v.
Proof. now destruct a. Qed.

Lemma axis_set_axis_other (a b : Axis.t) (v : Z) (t : TARGET) :
  a <> b -> axis (set_axis a v t) b = axis t b.
Proof. intros Hne. destruct a, b; (reflexivity || contradiction). Qed.

Lemma axis_set_F (v : Z) (t : TARGET) (a : Axis.t) : axis (set_F v t) a = axis t a.
Proof. now destruct a. Qed.

Lemma enqueue_home_keeps (api : queue_api) (t : TARGET) (check cond : Z)
      (g : globals) (a : Axis.t) (v : Z) :
  keeps_startpoint api ->
  axis t a = v -> axis (startpoint g) a = v ->
  axis (startpoint (enqueue_home_effect api t check cond g)) a = v.
Proof.
  intros (Henq & _ & _) Ht Hg. rewrite Henq; congruence.
Qed.

(** The globals a built routine leaves behind. *)
Lemma run_mem (api : queue_api) (cfg : config) (r : routine) (w : world) :
  built cfg r = true ->
  exists g : globals,
    mem (execState (run api cfg r) w)
    = dda_new_startpoint_effect api
        {| startpoint := set_axis (axis_of r) (home_coordinate cfg r)
                           (startpoint (queue_wait_effect api g));
           next_target_target :=
             set_axis (axis_of r) (home_coordinate cfg r)
               (next_target_target (queue_wait_effect api g)) |} /\
    forall a, a <> axis_of r ->
      keeps_startpoint api ->
      axis (startpoint g) a = axis (startpoint (mem w)) a.
Proof.
  intros Hbuilt.
  destruct r; cbn [built] in Hbuilt;
    try (apply andb_prop in Hbuilt; destruct Hbuilt as [Hpin Hlim]);
    unfold run, home_coordinate, limit_of,
      home_x_negative, home_x_positive, home_y_negative, home_y_positive,
      home_z_negative, home_z_positive, home_u_negative, home_u_positive;
    cbn [axis_of].
  all: try rewrite Hbuilt; try rewrite Hpin.
  all: match goal with
       | |- context [match ?lim with Some _ => _ | None => _ end] =>
           destruct lim; try discriminate
       end.
  all: match goal with
       | |- context [?f >? ?s] => destruct (f >? s)
       end.
  all: cbn; eexists; (split; [reflexivity|]).
  all: intros a Ha Hkeeps.
  all: repeat (apply enqueue_home_keeps;
               [ exact Hkeeps
               | repeat (rewrite axis_set_F || rewrite axis_set_axis_other by congruence);
                 reflexivity
               | ]).
  all: reflexivity.
Qed.

Example home_x_negative_run :
  trace (execState (home_x_negative chaining_queue (all_endstops 100)) somewhere)
  = [ Enqueue_home {| axis_X := -1000000; axis_Y := 22000; axis_Z := 33000;
                      axis_U := 44000; axis_E := 55000; F := 189 |} 1 1;
      Enqueue_home {| axis_X := 1000000; axis_Y := 22000; axis_Z := 33000;
                      axis_U := 44000; axis_E := 55000; F := 100 |} 1 0;
      Queue_wait;
      Store_next_target Axis.X 12500; Store_startpoint Axis.X 12500;
      Dda_new_startpoint ].
Proof. vm_compute. reflexivity. Qed.

Lemma endstop_checks_app (l1 l2 : list event) :
  endstop_checks (l1 ++ l2) = endstop_checks l1 ++ endstop_checks l2.
Proof. unfold endstop_checks. apply flat_map_app. Qed.

(** The fields of a target after [t.axis[a] = v; t.F = f]. *)
Lemma move_target_fields (t0 : TARGET) (a : Axis.t) (v f : Z) :
  axis (set_F f (set_axis a v t0)) a = v /\
  F (set_F f (set_axis a v t0)) = f /\
  forall b : Axis.t, b <> a -> axis (set_F f (set_axis a v t0)) b = axis t0 b.
Proof.
  split; [|split].
  - rewrite axis_set_F. apply axis_set_axis_same.
  - reflexivity.
  - intros b Hb. rewrite axis_set_F. apply axis_set_axis_other. congruence.
Qed.

(** C6.  Two-pass homing.  A built routine queues, starting from the
    current [startpoint], a move with its axis set to +-10^6 um in the
    direction of its endstop and [endstop_stop_cond = 1]; if the fast
    search feedrate exceeds the configured search feedrate this move runs
    at the fast feedrate and is followed by one move with the axis set to
    -+10^6 um at the search feedrate and [endstop_stop_cond = 0];
    otherwise it is the only move and runs at the search feedrate.  In
    every queued target the other axes are those of [startpoint].
    Nothing else is queued: the wait, the position stores and the
    notification follow. *)
Theorem two_pass_homing :
  forall (api : queue_api) (cfg : config) (r : routine) (w : world),
    built cfg r = true ->
    let a := axis_of r in
    let toward := if positive_of r then 1000000 else -1000000 in
    let fast := search_fast cfg a in
    let slow := search_feedrate cfg a in
    let t0 := startpoint (mem w) in
    exists (check value : Z) (moves : list event),
      trace (execState (run api cfg r) w)
      = trace w ++ moves
        ++ [ Queue_wait; Store_next_target a value; Store_startpoint a value;
             Dda_new_startpoint ] /\
      moves
      = (if fast >? slow then
           [ Enqueue_home (set_F fast (set_axis a toward t0)) check 1;
             Enqueue_home (set_F slow (set_axis a (- toward) t0)) check 0 ]
         else
           [ Enqueue_home (set_F slow (set_axis a toward t0)) check 1 ]) /\
      length moves = (if fast >? slow then 2%nat else 1%nat) /\
      axis (set_axis a toward t0) a = toward /\
      axis (set_axis a (- toward) t0) a = - toward /\
      (exists (t1 : TARGET) (rest : list event),
          moves = Enqueue_home t1 check 1 :: rest /\
          axis t1 a = toward /\
          F t1 = (if fast >? slow then fast else slow) /\
          (forall b : Axis.t, b <> a -> axis t1 b = axis t0 b) /\
          ((fast >? slow) = false -> rest = []) /\
          ((fast >? slow) = true ->
           exists t2 : TARGET,
             rest = [Enqueue_home t2 check 0] /\
             axis t2 a = - toward /\
             F t2 = slow /\
             (forall b : Axis.t, b <> a -> axis t2 b = axis t0 b))).
Proof.
  intros api cfg r w Hbuilt a toward fast slow t0.
  exists (passed_endstop_check r), (home_coordinate cfg r), (homing_moves cfg r t0).
  split; [now apply run_trace|].
  unfold homing_moves. fold a toward fast slow.
  split; [reflexivity|]. split; [now destruct (fast >? slow)|].
  split; [apply axis_set_axis_same|]. split; [apply axis_set_axis_same|].
  destruct (fast >? slow).
  - destruct (move_target_fields t0 a toward fast) as (H1 & H2 & H3).
    destruct (move_target_fields t0 a (- toward) slow) as (H4 & H5 & H6).
    eexists. eexists. split; [reflexivity|].
    split; [exact H1|]. split; [exact H2|]. split; [exact H3|].
    split; [discriminate|]. intros _.
    eexists. split; [reflexivity|]. split; [exact H4|]. split; [exact H5 | exact H6].
  - destruct (move_target_fields t0 a toward slow) as (H1 & H2 & H3).
    eexists. eexists. split; [reflexivity|].
    split; [exact H1|]. split; [exact H2|]. split; [exact H3|].
    split; [reflexivity | discriminate].
Qed.

(** [home_x_negative] from [somewhere] with a search feedrate of 100
    (below the fast feedrate 189) and of 500 (above it). *)
Lemma two_pass_homing_witness :
  built (all_endstops 100) X_negative = true /\
  built (all_endstops 500) X_negative = true /\
  (exists value,
      trace (execState (home_x_negative chaining_queue (all_endstops 100)) somewhere)
      = [ Enqueue_home {| axis_X := -1000000; axis_Y := 22000; axis_Z := 33000;
                          axis_U := 44000; axis_E := 55000; F := 189 |} 1 1;
          Enqueue_home {| axis_X := 1000000; axis_Y := 22000; axis_Z := 33000;
                          axis_U := 44000; axis_E := 55000; F := 100 |} 1 0;
          Queue_wait; Store_next_target Axis.X value; Store_startpoint Axis.X value;
          Dda_new_startpoint ]) /\
  (exists value,
      trace (execState (home_x_negative chaining_queue (all_endstops 500)) somewhere)
      = [ Enqueue_home {| axis_X := -1000000; axis_Y := 22000; axis_Z := 33000;
                          axis_U := 44000; axis_E := 55000; F := 500 |} 1 1;
          Queue_wait; Store_next_target Axis.X value; Store_startpoint Axis.X value;
          Dda_new_startpoint ]).
Proof.
  split; [reflexivity|]. split; [reflexivity|]. split.
  - destruct (two_pass_homing chaining_queue (all_endstops 100) X_negative somewhere eq_refl)
      as (check & value & moves & Htrace & Hmoves & _).
    exists value. change (run chaining_queue (all_endstops 100) X_negative)
      with (home_x_negative chaining_queue (all_endstops 100)) in Htrace.
    rewrite Htrace, Hmoves.
    assert (Hcheck : check = 1).
    { rewrite Hmoves in Htrace. vm_compute in Htrace. congruence. }
    subst check. reflexivity.
  - destruct (two_pass_homing chaining_queue (all_endstops 500) X_negative somewhere eq_refl)
      as (check & value & moves & Htrace & Hmoves & _).
    exists value. change (run chaining_queue (all_endstops 500) X_negative)
      with (home_x_negative chaining_queue (all_endstops 500)) in Htrace.
    rewrite Htrace, Hmoves.
    assert (Hcheck : check = 1).
    { rewrite Hmoves in Htrace. vm_compute in Htrace. congruence. }
    subst check. reflexivity.
Defined.

(** C8.  [home_x_negative] with [X_MIN_PIN] defined: after its homing
    moves it calls [queue_wait], then stores the home coordinate,
    [(int32_t)(X_MIN * 1000.0)] or 0 without [X_MIN], into
    [next_target.target.axis[X]] and [startpoint.axis[X]], then calls
    [dda_new_startpoint]; it stores nothing else.  Provided the queue
    functions treat [startpoint] as home.c expects ([keeps_startpoint]),
    [startpoint.axis[X]] holds the home coordinate afterwards and every
    other component of [startpoint] has the value it had before the call. *)
Theorem home_x_negative_sets_origin :
  forall (api : queue_api) (cfg : config) (w : world),
    X_MIN_PIN cfg = true ->
    let w' := execState (home_x_negative api cfg) w in
    let v := match X_MIN cfg with
             | Some x_min => double_to_Z (x_min * 1000)%float
             | None => 0
             end in
    (exists moves : list event,
        trace w'
        = trace w ++ moves
          ++ [ Queue_wait; Store_next_target Axis.X v; Store_startpoint Axis.X v;
               Dda_new_startpoint ] /\
        Forall (fun e => exists t check cond, e = Enqueue_home t check cond) moves) /\
    (keeps_startpoint api ->
     axis (startpoint (mem w')) Axis.X = v /\
     forall a, a <> Axis.X ->
       axis (startpoint (mem w')) a = axis (startpoint (mem w)) a).
Proof.
  intros api cfg w Hpin w' v.
  assert (Hbuilt : built cfg X_negative = true) by exact Hpin.
  split.
  - exists (homing_moves cfg X_negative (startpoint (mem w))). split.
    + exact (run_trace api cfg X_negative w Hbuilt).
    + unfold homing_moves.
      destruct (search_fast cfg (axis_of X_negative)
                >? search_feedrate cfg (axis_of X_negative));
        repeat constructor; eauto.
  - intros Hkeeps.
    destruct (run_mem api cfg X_negative w Hbuilt) as (g & Hmem & Hframe).
    change (run api cfg X_negative) with (home_x_negative api cfg) in Hmem.
    fold w' in Hmem. rewrite Hmem.
    destruct Hkeeps as (Henq & Hwait & Hnew).
    rewrite Hnew. cbn [startpoint axis_of]. split.
    + apply axis_set_axis_same.
    + intros a Ha. rewrite axis_set_axis_other by congruence.
      rewrite Hwait. apply Hframe; [exact Ha | now repeat split].
Qed.

Lemma chaining_queue_keeps_startpoint : keeps_startpoint chaining_queue.
Proof. repeat split. intros t check cond g a Ha. exact Ha. Qed.

Lemma home_x_negative_sets_origin_witness :
  X_MIN_PIN (all_endstops 100) = true /\
  keeps_startpoint chaining_queue /\
  startpoint (mem (execState (home_x_negative chaining_queue (all_endstops 100)) somewhere))
  = {| axis_X := 12500; axis_Y := 22000; axis_Z := 33000; axis_U := 44000;
       axis_E := 55000; F := 100 |} /\
  (forall a, a <> Axis.X ->
     axis (startpoint
             (mem (execState (home_x_negative chaining_queue (all_endstops 100)) somewhere))) a
     = axis (startpoint (mem somewhere)) a).
Proof.
  pose proof (home_x_negative_sets_origin chaining_queue (all_endstops 100) somewhere eq_refl)
    as (_ & Hstate).
  destruct (Hstate chaining_queue_keeps_startpoint) as (_ & Hframe).
  split; [reflexivity|]. split; [exact chaining_queue_keeps_startpoint|].
  split; [reflexivity | exact Hframe].
Defined.

(** C5 against the code.  Every [enqueue_home] call of a built routine
    passes the routine's own constant.  For the X, Y and Z routines that
    constant is the endstop bit of the routine's axis and direction.  For
    [home_u_negative] and [home_u_positive] it is 0x10 and 0x20, the Z-
    and Z+ bits, and not the U bits 0x40 and 0x80 of the layout. *)
Theorem u_routines_pass_z_endstop_bits :
  forall (api : queue_api) (cfg : config) (r : routine) (w : world),
    built cfg r = true ->
    let check := passed_endstop_check r in
    endstop_checks (trace (execState (run api cfg r) w))
    = endstop_checks (trace w)
      ++ (if search_fast cfg (axis_of r) >? search_feedrate cfg (axis_of r)
          then [check; check] else [check]) /\
    (axis_of r <> Axis.U -> check = endstop_bit (axis_of r) (positive_of r)) /\
    (axis_of r = Axis.U ->
     check = endstop_bit Axis.Z (positive_of r) /\
     check <> endstop_bit Axis.U (positive_of r)) /\
    endstop_bit Axis.U false = 0x40 /\ endstop_bit Axis.U true = 0x80.
Proof.
  intros api cfg r w Hbuilt check. split; [|split; [|split]].
  - rewrite run_trace by exact Hbuilt. rewrite !endstop_checks_app.
    f_equal. unfold homing_moves. fold check.
    now destruct (search_fast cfg (axis_of r) >? search_feedrate cfg (axis_of r)).
  - subst check. destruct r; cbn [axis_of]; intros Hax;
      try reflexivity; contradiction.
  - subst check. destruct r; cbn [axis_of]; intros Hax;
      try discriminate; split; (reflexivity || discriminate).
  - split; reflexivity.
Qed.

Lemma u_routines_pass_z_endstop_bits_witness :
  built (all_endstops 100) U_negative = true /\
  endstop_checks (trace (execState (home_u_negative chaining_queue (all_endstops 100)) somewhere))
  = [0x10; 0x10] /\
  endstop_checks (trace (execState (home_z_negative chaining_queue (all_endstops 100)) somewhere))
  = [0x10; 0x10] /\
  endstop_bit Axis.U false = 0x40.
Proof.
  pose proof (u_routines_pass_z_endstop_bits chaining_queue (all_endstops 100)
                U_negative somewhere eq_refl) as (Hu & _ & _ & Hbit & _).
  split; [reflexivity|]. split; [exact Hu|]. split; [reflexivity | exact Hbit].
Defined.

(** The exact formula brackets [60 * sqrt (2 * a * c / 1000)]. *)
Lemma search_fast_exact_spec (a c : Z) :
  0 <= a -> 0 <= c ->
  let v := search_fast_exact a c in
  0 <= v /\ 1000 * (v * v) <= 3600 * (2 * a * c) < 1000 * ((v + 1) * (v + 1)).
Proof.
  intros Ha Hc v.
  assert (Hq : 0 <= 3600 * (2 * a * c) / 1000) by (apply Z.div_pos; nia).
  pose proof (Z.sqrt_spec _ Hq) as Hs. fold (search_fast_exact a c) in Hs. fold v in Hs.
  pose proof (Z.sqrt_nonneg (3600 * (2 * a * c) / 1000)) as Hv.
  fold (search_fast_exact a c) in Hv. fold v in Hv.
  split; [exact Hv|].
  unfold Z.succ in Hs.
  pose proof (Z.div_mod (3600 * (2 * a * c)) 1000 ltac:(lia)) as Hdm.
  pose proof (Z.mod_pos_bound (3600 * (2 * a * c)) 1000 ltac:(lia)) as Hmod.
  nia.
Qed.

(** C7, as the code has it.  Each of the four fast search feedrates is
    [60 * sqrt (2 * ACCELERATION * ENDSTOP_CLEARANCE / 1000)] for the
    clearance of its own axis, computed in [double] and converted to an
    unsigned integer.  With ACCELERATION 1000 and ENDSTOP_CLEARANCE 5 its
    value is 189; with the clearance given as 5000 it is 6000; 1897 is
    the value for ACCELERATION 100 and ENDSTOP_CLEARANCE 5000.  At these
    settings the [double] computation agrees with exact arithmetic. *)
Theorem search_fast_values :
  (forall cfg : config,
      SEARCH_FAST_X cfg = search_fast_formula (ACCELERATION cfg) (ENDSTOP_CLEARANCE_X cfg) /\
      SEARCH_FAST_Y cfg = search_fast_formula (ACCELERATION cfg) (ENDSTOP_CLEARANCE_Y cfg) /\
      SEARCH_FAST_Z cfg = search_fast_formula (ACCELERATION cfg) (ENDSTOP_CLEARANCE_Z cfg) /\
      SEARCH_FAST_U cfg = search_fast_formula (ACCELERATION cfg) (ENDSTOP_CLEARANCE_U cfg)) /\
  search_fast_formula 1000 5 = 189 /\ search_fast_exact 1000 5 = 189 /\
  search_fast_formula 1000 5000 = 6000 /\ search_fast_exact 1000 5000 = 6000 /\
  search_fast_formula 100 5000 = 1897 /\ search_fast_exact 100 5000 = 1897 /\
  SEARCH_FAST_X (all_endstops 100) = 189.
Proof.
  split; [intros cfg; repeat split|].
  repeat split; vm_compute; reflexivity.
Qed.

(** C7 as worded fails: at ACCELERATION 1000 and ENDSTOP_CLEARANCE 5 the
    fast search feedrate is 189, a tenth of the 1897 stated. *)
Lemma search_fast_counterexample :
  ACCELERATION (all_endstops 100) = 1000%float /\
  ENDSTOP_CLEARANCE_X (all_endstops 100) = 5%float /\
  SEARCH_FAST_X (all_endstops 100) = 189 /\
  ~ (1800 <= SEARCH_FAST_X (all_endstops 100) <= 2000).
Proof.
  split; [reflexivity|]. split; [reflexivity|].
  assert (E : SEARCH_FAST_X (all_endstops 100) = 189) by (vm_compute; reflexivity).
  split; [exact E|]. rewrite E. lia.
Qed.

End HomeProofs.

(** * Further properties of the step timer *)

Module TimerMore.
Import Timer TimerProofs.

#[local] Arguments to_uint8 : simpl never.
#[local] Arguments to_uint16 : simpl never.
#[local] Arguments to_uint32 : simpl never.
#[local] Arguments MASK : simpl never.
#[local] Arguments OCIE1A : simpl never.
#[local] Arguments elapsed_plus_safe : simpl never.
#[local] Arguments Z.land : simpl never.
#[local] Arguments Z.lor : simpl never.
#[local] Arguments Z.lnot : simpl never.
#[local] Arguments Z.ltb : simpl never.
#[local] Arguments Z.gtb : simpl never.
#[local] Arguments Z.testbit : simpl never.

Lemma to_uint32_range (x : Z) : 0 <= to_uint32 x < 2 ^ 32.
Proof. unfold to_uint32. apply Z.mod_pos_bound. lia. Qed.

(** The state [timer_set(delay, 0)] leaves, by the value stored in
    [next_step_time]. *)
Lemma timer_set_state (cfg : config) (delay : Z) (s : avr) :
  let n := to_uint32 delay in
  snd (timer_set cfg delay 0 s)
  = set_TIMSK1 (to_uint8 (Z.lor (TIMSK1 s) (MASK OCIE1A)))
      (if n <? 65536 then
         set_OCR1A ((n + OCR1A s) mod 65536) (set_next_step_time n (cli s))
       else if n <? 75536 then
         set_next_step_time (n + 10000)
           (set_OCR1A ((OCR1A s - 10000) mod 65536) (set_next_step_time n (cli s)))
       else set_OCR1A (OCR1A s) (set_next_step_time n (cli s))).
Proof.
  intros n. pose proof (to_uint32_range delay) as Hn. fold n in Hn.
  unfold timer_set. cbn. rewrite andb_false_r. cbn. fold n.
  rewrite !land_0xFFFF.
  destruct (Z.ltb_spec n 65536); [reflexivity|].
  destruct (Z.ltb_spec n 75536); [|reflexivity].
  rewrite to_uint32_small by lia. reflexivity.
Qed.

(** X1.  [next_step_time] is never left inside the guard band
    [65536, 75536): not by a [timer_set] that schedules, whatever the
    delay, and not by a wind-down interrupt.  Hence a wind-down interrupt
    that follows either of them has at least 10000 ticks left after taking
    off its round. *)
Theorem guard_band_never_occupied :
  forall (queue_step : avr -> avr) (cfg : config) (s : avr) (delay check_short : Z),
    (fst (timer_set cfg delay check_short s) = 0 ->
     ~ (65536 <= next_step_time (snd (timer_set cfg delay check_short s)) < 75536)) /\
    (65536 <= next_step_time s < 2 ^ 32 ->
     ~ (65536 <= next_step_time (ISR_TIMER1_COMPA queue_step s) < 75536)) /\
    (75536 <= next_step_time s < 2 ^ 32 ->
     10000 <= next_step_time (ISR_TIMER1_COMPA queue_step s)).
Proof.
  intros qs cfg s delay cs. split; [|split].
  - intros H0. rewrite (timer_set_scheduled_state _ _ _ _ H0), timer_set_state.
    pose proof (to_uint32_range delay) as Hn.
    destruct (Z.ltb_spec (to_uint32 delay) 65536);
      [|destruct (Z.ltb_spec (to_uint32 delay) 75536)]; cbn; lia.
  - intros Hs. rewrite isr_wind_down by exact Hs.
    destruct (Z.ltb_spec (next_step_time s - 65536) 65536);
      [|destruct (Z.ltb_spec (next_step_time s - 65536) 75536)]; cbn; lia.
  - intros Hs. rewrite isr_wind_down by lia.
    destruct (Z.ltb_spec (next_step_time s - 65536) 65536);
      [|destruct (Z.ltb_spec (next_step_time s - 65536) 75536)]; cbn; lia.
Qed.

Section Count.

Variable queue_step : avr -> avr.

Lemma fire_gaps_nonempty (fuel : nat) (since : Z) (s : avr) (l : list Z) :
  fire_gaps queue_step fuel since s = Some l -> exists g rest, l = g :: rest.
Proof.
  destruct fuel as [| fuel]; cbn [fire_gaps]; [discriminate|].
  destruct (next_step_time s <? 65536).
  - intros [= <-]. eauto.
  - destruct (fire_gaps queue_step fuel _ _); cbn [option_map]; [|discriminate].
    intros [= <-]. eauto.
Qed.

(** The number of interrupts still to come after the next one. *)
Lemma fire_gaps_wind_down_length :
  forall (fuel : nat) (since : Z) (s : avr) (g : Z) (rest : list Z),
    75536 <= next_step_time s < 2 ^ 32 ->
    fire_gaps queue_step fuel since s = Some (g :: rest) ->
    Z.of_nat (length rest) = next_step_time s / 65536.
Proof.
  induction fuel as [| fuel IH]; intros since s g rest Hn; [discriminate|].
  rewrite fire_gaps_unfold by lia.
  rewrite isr_wind_down by (cbn; lia). cbn [next_step_time set_TCNT1 OCR1A].
  set (r := next_step_time s - 65536).
  destruct (Z.ltb_spec r 65536) as [Hlast | Hmore].
  - destruct fuel as [| fuel]; [discriminate|].
    rewrite fire_gaps_direct by (cbn; lia). cbn [option_map].
    intros [= _ <-]. cbn [length]. subst r. mod_lia.
  - destruct (Z.ltb_spec r 75536) as [Hguard | Hfar].
    + destruct (fire_gaps queue_step fuel _ _) as [l |] eqn:Hin; [|discriminate].
      destruct (fire_gaps_nonempty _ _ _ _ Hin) as (g' & rest' & ->).
      cbn [option_map]. intros [= _ <-].
      apply IH in Hin; [|cbn; lia]. cbn [next_step_time set_next_step_time] in Hin.
      cbn [length]. rewrite Nat2Z.inj_succ, Hin. subst r. mod_lia.
    + destruct (fire_gaps queue_step fuel _ _) as [l |] eqn:Hin; [|discriminate].
      destruct (fire_gaps_nonempty _ _ _ _ Hin) as (g' & rest' & ->).
      cbn [option_map]. intros [= _ <-].
      apply IH in Hin; [|cbn; lia]. cbn [next_step_time set_next_step_time] in Hin.
      cbn [length]. rewrite Nat2Z.inj_succ, Hin. subst r. mod_lia.
Qed.

End Count.

(** X2.  When the step comes.  [timer_set(delay, 0)] with a positive
    delay programmes a first compare value [delay] ticks past the previous
    compare event for a delay below 65536, 55536 ticks past it for a delay
    in the guard band, and a full round past it otherwise.  If the call is
    made before the counter has got that far, the step is taken exactly
    [delay] counter ticks after the previous compare event; if it is made
    later, the step is taken a round of the counter, 65536 ticks, late.
    Either way exactly [delay / 65536] interrupts without a step come
    before it. *)
Theorem step_time_after_timer_set :
  forall (queue_step : avr -> avr) (cfg : config) (s : avr) (delay : Z) (fuel : nat),
    0 < delay < 2 ^ 31 ->
    delay + 10000 < Z.of_nat fuel * 55536 ->
    let s' := snd (timer_set cfg delay 0 s) in
    let lead := ticks_until_match (OCR1A s) (OCR1A s') in
    lead = (if delay <? 65536 then delay else if delay <? 75536 then 55536 else 65536) /\
    exists gaps : list Z,
      gaps_on_counter queue_step fuel (OCR1A s) s' = Some gaps /\
      sumZ gaps = (if ticks_gone (OCR1A s) s <? lead then delay else delay + 65536) /\
      Z.of_nat (length gaps) = delay / 65536 + 1.
Proof.
  intros qs cfg s delay fuel Hd Hfuel s' lead.
  destruct (timer_set_gaps_on_counter qs cfg delay s fuel Hd Hfuel)
    as (Hlead & g & rest & Heq & Hgaps & Hg & Hsum & _).
  fold s' in Heq, Hgaps, Hlead. fold lead in Hgaps, Hg, Hlead.
  split; [exact Hlead|].
  eexists. split; [exact Hgaps|]. split.
  - rewrite sumZ_cons in *. change (g = lead) in Hg.
    destruct (ticks_gone (OCR1A s) s <? lead); lia.
  - subst s'. rewrite timer_set_state in Heq. rewrite to_uint32_small in Heq by lia.
    cbn [length]. rewrite Nat2Z.inj_succ.
    destruct (Z.ltb_spec delay 65536) as [Hdirect | Hlarge].
    + destruct fuel as [| fuel]; [discriminate|].
      rewrite fire_gaps_direct in Heq by (cbn; lia).
      injection Heq as _ <-. cbn [length]. mod_lia.
    + destruct (Z.ltb_spec delay 75536) as [Hguard | Hfar].
      * apply fire_gaps_wind_down_length in Heq; [|cbn; lia].
        cbn [next_step_time set_TIMSK1 set_next_step_time] in Heq. rewrite Heq. mod_lia.
      * apply fire_gaps_wind_down_length in Heq; [|cbn; lia].
        cbn [next_step_time set_TIMSK1 set_OCR1A set_next_step_time] in Heq.
        rewrite Heq. lia.
Qed.

(** In the step interrupt 300 ticks after the compare event at 1000: a
    request for 200000 ticks is kept, a request for 200 ticks is met a
    round late. *)
Lemma step_time_after_timer_set_witness :
  (0 < 200000 < 2 ^ 31 /\
   200000 + 10000 < Z.of_nat 4 * 55536 /\
   exists gaps : list Z,
     gaps_on_counter (fun x => x) 4 (OCR1A in_step_isr)
       (snd (timer_set avr_ramping 200000 0 in_step_isr)) = Some gaps /\
     sumZ gaps = 200000 /\
     Z.of_nat (length gaps) = 4) /\
  (0 < 200 < 2 ^ 31 /\
   200 + 10000 < Z.of_nat 1 * 55536 /\
   exists gaps : list Z,
     gaps_on_counter (fun x => x) 1 (OCR1A in_step_isr)
       (snd (timer_set avr_ramping 200 0 in_step_isr)) = Some gaps /\
     sumZ gaps = 65736 /\
     Z.of_nat (length gaps) = 1).
Proof.
  split.
  - assert (Hd : 0 < 200000 < 2 ^ 31) by lia.
    assert (Hfuel : 200000 + 10000 < Z.of_nat 4 * 55536) by (cbn; lia).
    split; [exact Hd|]. split; [exact Hfuel|].
    exact (proj2 (step_time_after_timer_set (fun x => x) avr_ramping in_step_isr
                    200000 4 Hd Hfuel)).
  - assert (Hd : 0 < 200 < 2 ^ 31) by lia.
    assert (Hfuel : 200 + 10000 < Z.of_nat 1 * 55536) by (cbn; lia).
    split; [exact Hd|]. split; [exact Hfuel|].
    exact (proj2 (step_time_after_timer_set (fun x => x) avr_ramping in_step_isr
                    200 1 Hd Hfuel)).
Defined.

(** X3.  A delay of zero is the one request that is not kept: the compare
    value does not move, so the step is taken a full round of the counter,
    65536 ticks, after the previous compare event. *)
Theorem zero_delay_takes_a_full_round :
  forall (queue_step : avr -> avr) (cfg : config) (s : avr) (fuel : nat),
    0 <= OCR1A s < 65536 ->
    OCR1A (snd (timer_set cfg 0 0 s)) = OCR1A s /\
    next_step_time (snd (timer_set cfg 0 0 s)) = 0 /\
    fire_gaps queue_step (S fuel) (OCR1A s) (snd (timer_set cfg 0 0 s)) = Some [65536].
Proof.
  intros qs cfg s fuel Ho.
  rewrite timer_set_state. change (to_uint32 0) with 0.
  change (0 <? 65536) with true. cbv iota.
  cbn [OCR1A next_step_time set_TIMSK1 set_OCR1A set_next_step_time].
  rewrite Z.add_0_l, Z.mod_small by lia.
  split; [reflexivity|]. split; [reflexivity|].
  rewrite fire_gaps_direct by (cbn; lia).
  cbn [OCR1A set_TIMSK1 set_OCR1A]. now rewrite ticks_until_match_same.
Qed.

Lemma zero_delay_takes_a_full_round_witness :
  0 <= OCR1A in_step_isr < 65536 /\
  fire_gaps (fun x => x) 1 1000 (snd (timer_set avr_ramping 0 0 in_step_isr))
  = Some [65536].
Proof.
  assert (Ho : 0 <= OCR1A in_step_isr < 65536) by by_eval.
  split; [exact Ho|].
  apply (zero_delay_takes_a_full_round (fun x => x) avr_ramping in_step_isr 0 Ho).
Defined.

(** X4.  A negative delay.  On the AVR, with ACCELERATION_TEMPORAL and a
    non-zero [check_short], it is always refused with 1.  Where it is
    scheduled, as for every call with [check_short = 0], it is taken as
    the unsigned number [2^32 + delay]: OCR1A stays where it is and the
    step comes [2^32 + delay] ticks after the previous compare event. *)
Theorem negative_delay :
  forall (queue_step : avr -> avr) (cfg : config) (s : avr)
         (delay check_short : Z) (fuel : nat),
    - 2 ^ 31 <= delay < 0 ->
    (target cfg = AVR -> ACCELERATION_TEMPORAL cfg = true -> check_short <> 0 ->
     fst (timer_set cfg delay check_short s) = 1) /\
    (check_short = 0 -> fst (timer_set cfg delay check_short s) = 0) /\
    (fst (timer_set cfg delay check_short s) = 0 ->
     let s' := snd (timer_set cfg delay check_short s) in
     next_step_time s' = 2 ^ 32 + delay /\
     OCR1A s' = OCR1A s /\
     (2 ^ 32 + delay < Z.of_nat fuel * 55536 ->
      exists gaps : list Z,
        fire_gaps queue_step fuel (OCR1A s) s' = Some gaps /\
        sumZ gaps = 2 ^ 32 + delay)).
Proof.
  intros qs cfg s delay cs fuel Hd. split; [|split].
  - intros Havr Htemp Hcs. rewrite timer_set_flag, Havr, Htemp.
    destruct (Z.eqb_spec cs 0) as [E | _]; [contradiction|].
    unfold elapsed_plus_safe.
    pose proof (Z.mod_pos_bound (to_uint16 (TCNT1 s - OCR1A s) + 200) (2 ^ 16)
                  ltac:(lia)) as Hb.
    fold (to_uint16 (to_uint16 (TCNT1 s - OCR1A s) + 200)) in Hb.
    destruct (Z.gtb_spec (to_uint16 (to_uint16 (TCNT1 s - OCR1A s) + 200)) delay);
      [reflexivity | lia].
  - intros ->. apply timer_set_unchecked.
  - intros H0 s'. subst s'. rewrite (timer_set_scheduled_state _ _ _ _ H0).
    assert (Hn : to_uint32 delay = 2 ^ 32 + delay).
    { unfold to_uint32. change (2 ^ 32) with 4294967296 in *.
      change (2 ^ 31) with 2147483648 in *. mod_lia. }
    rewrite timer_set_state, Hn.
    change (2 ^ 32) with 4294967296 in *. change (2 ^ 31) with 2147483648 in *.
    destruct (Z.ltb_spec (4294967296 + delay) 65536); [lia|].
    destruct (Z.ltb_spec (4294967296 + delay) 75536); [lia|].
    cbn [OCR1A next_step_time set_TIMSK1 set_OCR1A set_next_step_time].
    split; [reflexivity|]. split; [reflexivity|]. intros Hfuel.
    edestruct (fire_gaps_wind_down qs fuel (OCR1A s)) as (rest & Heq & _ & Hsum & _);
      [| | rewrite Heq]; cbn [next_step_time set_TIMSK1 set_OCR1A set_next_step_time];
      try (change (2 ^ 32) with 4294967296; lia).
    cbn [OCR1A next_step_time set_TIMSK1 set_OCR1A set_next_step_time] in *.
    rewrite ticks_until_match_same.
    eexists. split; [reflexivity|]. rewrite sumZ_cons. lia.
Qed.

Lemma negative_delay_witness :
  - 2 ^ 31 <= -1 < 0 /\
  fst (timer_set avr_temporal (-1) 1 in_step_isr) = 1 /\
  fst (timer_set avr_temporal (-1) 0 in_step_isr) = 0 /\
  next_step_time (snd (timer_set avr_temporal (-1) 0 in_step_isr)) = 2 ^ 32 + -1.
Proof.
  assert (Hd : - 2 ^ 31 <= -1 < 0) by lia.
  assert (Hcs : 1 <> 0) by discriminate.
  pose proof (negative_delay (fun x => x) avr_temporal in_step_isr (-1) 1 0 Hd)
    as (Hrefuse & _).
  pose proof (negative_delay (fun x => x) avr_temporal in_step_isr (-1) 0 0 Hd)
    as (_ & Hplain & Hsched).
  split; [exact Hd|]. split; [exact (Hrefuse eq_refl eq_refl Hcs)|].
  split; [exact (Hplain eq_refl)|]. exact (proj1 (Hsched (Hplain eq_refl))).
Defined.

(** X5.  [timer_set] changes no bit of TIMSK1 other than OCIE1A, on either
    return, and keeps every register within its width. *)
Theorem timer_set_keeps_other_interrupt_enables :
  forall (cfg : config) (s : avr) (delay check_short : Z),
    wf s ->
    wf (snd (timer_set cfg delay check_short s)) /\
    forall i : Z,
      i <> OCIE1A ->
      Z.testbit (TIMSK1 (snd (timer_set cfg delay check_short s))) i
      = Z.testbit (TIMSK1 s) i.
Proof.
  intros cfg s delay cs Hwf. split; [now apply timer_set_wf|].
  intros i Hi. pose proof Hwf as (_ & _ & Hm & _).
  pose proof (timer_set_flag cfg delay cs s) as Hflag.
  destruct (ACCELERATION_TEMPORAL cfg && negb (cs =? 0)
            && (elapsed_plus_safe (target cfg) (TCNT1 s) (OCR1A s) >? delay)).
  - now rewrite (timer_set_short_state _ _ _ _ Hflag).
  - rewrite (timer_set_scheduled_state _ _ _ _ Hflag), timer_set_state.
    cbn [TIMSK1 set_TIMSK1]. rewrite arm_bits by exact Hm.
    destruct (Z.eqb_spec i OCIE1A); [contradiction | reflexivity].
Qed.

Lemma timer_set_keeps_other_interrupt_enables_witness :
  wf in_step_isr /\
  Z.testbit (TIMSK1 (snd (timer_set avr_ramping 1234 0 in_step_isr))) 2
  = Z.testbit (TIMSK1 in_step_isr) 2.
Proof.
  assert (Hwf : wf in_step_isr) by by_eval.
  assert (Hi : 2 <> OCIE1A) by discriminate.
  split; [exact Hwf|].
  exact (proj2 (timer_set_keeps_other_interrupt_enables avr_ramping in_step_isr 1234 0 Hwf)
           2 Hi).
Defined.

End TimerMore.

(** * Properties of the system clock, initialisation and stop *)

Module ClockProofs.
Import Timer TimerProofs Clock.

#[local] Arguments to_uint8 : simpl never.
#[local] Arguments MASK : simpl never.
#[local] Arguments Z.land : simpl never.
#[local] Arguments Z.lor : simpl never.
#[local] Arguments Z.testbit : simpl never.

Section Handler.

Variable TICK_TIME : Z.
Variable clock_tick : mcu -> mcu.

(** The handler's own work on the machine: move comparator B on, tick. *)
Lemma isr_busy (dda_clock : clk -> clk) (c : clk) :
  busy c <> 0 ->
  ISR_TIMER1_COMPB TICK_TIME clock_tick dda_clock c
  = set_machine
      (clock_tick (set_OCR1B ((OCR1B (machine c) + TICK_TIME) mod 65536) (machine c))) c.
Proof.
  intros Hb. unfold ISR_TIMER1_COMPB. cbn [busy set_machine machine].
  rewrite land_0xFFFF.
  destruct (Z.eqb_spec (busy c) 0); [contradiction | reflexivity].
Qed.

Lemma isr_idle (dda_clock : clk -> clk) (c : clk) :
  busy c = 0 ->
  ISR_TIMER1_COMPB TICK_TIME clock_tick dda_clock c
  = set_busy 0
      (dda_clock
         (set_machine
            (sei (clock_tick
                    (set_OCR1B ((OCR1B (machine c) + TICK_TIME) mod 65536) (machine c))))
            (set_busy 1 c))).
Proof.
  intros Hb. unfold ISR_TIMER1_COMPB. cbn [busy set_machine machine].
  rewrite land_0xFFFF, Hb. reflexivity.
Qed.

Lemma nested_ticks (n : nat) (c : clk) :
  busy c <> 0 ->
  Nat.iter n (ISR_TIMER1_COMPB TICK_TIME clock_tick (fun c => c)) c
  = set_machine
      (Nat.iter n
         (fun m => clock_tick (set_OCR1B ((OCR1B m + TICK_TIME) mod 65536) m))
         (machine c)) c.
Proof.
  intros Hb. induction n as [| n IH].
  - now destruct c.
  - rewrite !Nat.iter_succ, IH, isr_busy by exact Hb. reflexivity.
Qed.

End Handler.

(** X6.  The re-entrancy latch.  A comparator-B interrupt that finds
    [busy] set moves OCR1B on and calls [clock_tick], and nothing else:
    [dda_clock] is not run, interrupts are not enabled, [busy] stays set.
    An interrupt that finds [busy] clear and is itself interrupted [n]
    times while in [dda_clock] runs the work of [dda_clock] once,
    [clock_tick] [n + 1] times, and leaves [busy] clear. *)
Theorem dda_clock_not_reentered :
  forall (TICK_TIME : Z) (clock_tick work : mcu -> mcu) (dda_clock : clk -> clk)
         (n : nat) (c : clk),
    let tick := fun m => clock_tick (set_OCR1B ((OCR1B m + TICK_TIME) mod 65536) m) in
    (busy c <> 0 ->
     ISR_TIMER1_COMPB TICK_TIME clock_tick dda_clock c = set_machine (tick (machine c)) c) /\
    (busy c = 0 ->
     ISR_TIMER1_COMPB TICK_TIME clock_tick (interrupted TICK_TIME clock_tick work n) c
     = {| machine := Nat.iter n tick (work (sei (tick (machine c)))); busy := 0 |}).
Proof.
  intros TICK ct work dc n c tick. split.
  - intros Hb. now apply isr_busy.
  - intros Hb. rewrite isr_idle by exact Hb. unfold interrupted.
    rewrite nested_ticks by (cbn; discriminate). reflexivity.
Qed.

(** X7.  The system clock does not drift: as long as [clock_tick] and
    [dda_clock] leave OCR1B alone, after [n] comparator-B interrupts
    OCR1B is [n * TICK_TIME] past its initial value, modulo 65536,
    whatever the state of the latch at each of them. *)
Theorem system_clock_compare_after_n_ticks :
  forall (TICK_TIME : Z) (clock_tick : mcu -> mcu) (dda_clock : clk -> clk),
    (forall m, OCR1B (clock_tick m) = OCR1B m) ->
    (forall c, OCR1B (machine (dda_clock c)) = OCR1B (machine c)) ->
    forall (n : nat) (c : clk),
      0 <= OCR1B (machine c) < 65536 ->
      OCR1B (machine (Nat.iter n (ISR_TIMER1_COMPB TICK_TIME clock_tick dda_clock) c))
      = (OCR1B (machine c) + Z.of_nat n * TICK_TIME) mod 65536.
Proof.
  intros TICK ct dc Hct Hdc n c Ho.
  induction n as [| n IH].
  - cbn [Nat.iter nat_rect]. rewrite Z.add_0_r. symmetry. now apply Z.mod_small.
  - rewrite Nat.iter_succ. set (c' := Nat.iter n _ c) in *.
    destruct (Z.eq_dec (busy c') 0) as [Hb | Hb].
    + rewrite isr_idle by exact Hb. cbn [machine set_busy].
      rewrite Hdc. cbn [machine set_machine sei OCR1B set_step].
      rewrite Hct. cbn [OCR1B set_OCR1B]. rewrite IH.
      rewrite Zplus_mod_idemp_l. f_equal. lia.
    + rewrite isr_busy by exact Hb. cbn [machine set_machine].
      rewrite Hct. cbn [OCR1B set_OCR1B]. rewrite IH.
      rewrite Zplus_mod_idemp_l. f_equal. lia.
Qed.

Lemma system_clock_compare_after_n_ticks_witness :
  OCR1B (machine (Nat.iter 3 (ISR_TIMER1_COMPB 32000 (fun m => m) (fun c => c))
                    {| machine := timer_init 32000 power_on; busy := 0 |}))
  = (32000 + 3 * 32000) mod 65536.
Proof.
  assert (Ho : 0 <= OCR1B (machine {| machine := timer_init 32000 power_on; busy := 0 |})
               < 65536) by (split; vm_compute; (reflexivity || discriminate)).
  exact (system_clock_compare_after_n_ticks 32000 (fun m => m) (fun c => c)
           (fun m => eq_refl) (fun c => eq_refl) 3 _ Ho).
Defined.

(** X8.  Which interrupts are enabled.  [timer_init] enables the system
    clock and leaves the step interrupt disabled; a [timer_set] after it
    keeps the system clock enabled.  [timer_stop] disables both, and a
    [timer_set] after [timer_stop] enables the step interrupt, if it
    schedules, but never the system clock. *)
Theorem interrupt_enables_after_init_and_stop :
  forall (TICK_TIME : Z) (cfg : config) (m : mcu) (delay check_short : Z),
    let started := timer_init TICK_TIME m in
    let stopped := timer_stop m in
    (system_clock_armed started = true /\
     step_interrupt_armed (step started) = false /\
     OCR1B started = TICK_TIME mod 65536) /\
    system_clock_armed (snd (timer_set cfg delay check_short started)) = true /\
    (system_clock_armed stopped = false /\
     step_interrupt_armed (step stopped) = false) /\
    system_clock_armed (snd (timer_set cfg delay check_short stopped)) = false /\
    (fst (timer_set cfg delay check_short stopped) = 0 ->
     step_interrupt_armed (step (snd (timer_set cfg delay check_short stopped))) = true).
Proof.
  intros TICK cfg m delay cs started stopped.
  assert (Hkeep : forall x : mcu,
             0 <= TIMSK1 (step x) < 256 ->
             system_clock_armed (snd (timer_set cfg delay cs x)) = system_clock_armed x).
  { intros x Hx. unfold system_clock_armed, timer_set. cbn [snd step set_step].
    pose proof (timer_set_flag cfg delay cs (step x)) as Hflag.
    destruct (ACCELERATION_TEMPORAL cfg && negb (cs =? 0)
              && (elapsed_plus_safe (target cfg) (TCNT1 (step x)) (OCR1A (step x))
                  >? delay)).
    - now rewrite (timer_set_short_state _ _ _ _ Hflag).
    - rewrite (timer_set_scheduled_state _ _ _ _ Hflag), TimerMore.timer_set_state.
      cbn [TIMSK1 set_TIMSK1]. rewrite arm_bits by exact Hx. reflexivity. }
  split; [|split; [|split; [|split]]].
  - subst started. unfold system_clock_armed, step_interrupt_armed, timer_init.
    cbn [step set_step TIMSK1 set_TIMSK1 OCR1B set_OCR1B set_TCCR1A set_TCCR1B].
    rewrite land_0xFFFF. repeat split; reflexivity.
  - rewrite Hkeep.
    + subst started. reflexivity.
    + subst started. cbn. split; vm_compute; (reflexivity || discriminate).
  - subst stopped. split; reflexivity.
  - rewrite Hkeep.
    + subst stopped. reflexivity.
    + subst stopped. cbn. lia.
  - intros H0. unfold timer_set in *. cbn [fst snd step set_step] in *.
    rewrite (timer_set_scheduled_state _ _ _ _ H0), TimerMore.timer_set_state.
    unfold step_interrupt_armed. cbn [TIMSK1 set_TIMSK1].
    rewrite arm_bits by (subst stopped; cbn; lia). reflexivity.
Qed.

End ClockProofs.

(** * Properties of the I2C driver *)

Module I2cProofs.
Import I2c.

Lemma busy_bit_kept_by_error_flags (st : Z) :
  Z.land (Z.lor st (Z.lor I2C_ERROR I2C_INTERRUPTED)) I2C_MODE_BUSY
  = Z.land st I2C_MODE_BUSY.
Proof.
  rewrite Z.land_lor_distr_l.
  replace (Z.land (Z.lor I2C_ERROR I2C_INTERRUPTED) I2C_MODE_BUSY) with 0 by reflexivity.
  apply Z.lor_0_r.
Qed.

Lemma busy_bit_kept_by_clearing_error (st : Z) :
  Z.land (to_uint8 (Z.land st (Z.lnot I2C_ERROR))) I2C_MODE_BUSY
  = Z.land st I2C_MODE_BUSY.
Proof.
  apply Z.bits_inj'. intros n Hn.
  rewrite !Z.land_spec, TimerProofs.to_uint8_bits, Z.land_spec, Z.lnot_spec by exact Hn.
  change I2C_MODE_BUSY with (2 ^ 6). change I2C_ERROR with (2 ^ 0).
  rewrite !Z.pow2_bits_eqb by lia.
  destruct (Z.eqb_spec 6 n) as [<- | Hne].
  - cbn. now rewrite andb_true_r.
  - now rewrite !andb_false_r.
Qed.

Lemma error_bit_cleared (st : Z) :
  Z.land (to_uint8 (Z.land st (Z.lnot I2C_ERROR))) I2C_ERROR = 0.
Proof.
  apply Z.bits_inj'. intros n Hn.
  rewrite !Z.land_spec, TimerProofs.to_uint8_bits, Z.land_spec, Z.lnot_spec by exact Hn.
  change I2C_ERROR with (2 ^ 0). rewrite Z.bits_0, !Z.pow2_bits_eqb by lia.
  destruct (Z.eqb_spec 0 n) as [<- | Hne].
  - cbn. now rewrite andb_false_r.
  - now rewrite !andb_false_r.
Qed.

Section WithBuffer.

Context {B : Type} {RB : RingBuffer B}.
Variable contents : B -> list Z.
Variable capacity : nat.
Hypothesis laws : fifo_laws contents capacity.

Lemma canread_nil (b : B) : contents b = [] -> buf_canread b = false.
Proof. intros E. rewrite (canread_spec _ _ laws), E. reflexivity. Qed.

Lemma canread_cons (b : B) (x : Z) (l : list Z) :
  contents b = x :: l -> buf_canread b = true.
Proof. intros E. rewrite (canread_spec _ _ laws), E. reflexivity. Qed.

(** The drain loop ends, with the buffer empty and nothing but the buffer
    and TWDR touched. *)
Lemma drain_empties :
  forall (fuel : nat) (s : twi),
    (length (contents (send s)) <= fuel)%nat ->
    exists s' : twi,
      drain fuel s = Some s' /\ contents (send s') = [] /\
      i2c_state s' = i2c_state s /\ i2c_should_end s' = i2c_should_end s /\
      i2c_address s' = i2c_address s /\ TWCR s' = TWCR s.
Proof.
  induction fuel as [| fuel IH]; intros s Hlen.
  - assert (E : contents (send s) = [])
      by (destruct (contents (send s)); [reflexivity | cbn in Hlen; lia]).
    exists s. cbn [drain]. rewrite (canread_nil _ E). repeat split; assumption.
  - destruct (contents (send s)) as [| x l] eqn:E.
    + exists s. cbn [drain]. rewrite (canread_nil _ E). repeat split; assumption.
    + cbn [drain]. rewrite (canread_cons _ _ _ E).
      destruct (pop_spec _ _ laws _ _ _ E) as (_ & Hl).
      destruct (IH (pop_to_TWDR s)) as (s' & Hd & He & Hst & Hend & Ha & Hc).
      { cbn [pop_to_TWDR send set_send]. rewrite Hl. cbn in Hlen. lia. }
      exists s'. split; [exact Hd|]. split; [exact He|].
      now rewrite Hst, Hend, Ha, Hc.
Qed.

Lemma perform_all_app (fuel : nat) (l1 l2 : list action) (s : twi) :
  perform_all fuel (l1 ++ l2) s
  = match perform_all fuel l1 s with
    | Some s' => perform_all fuel l2 s'
    | None => None
    end.
Proof.
  revert s. induction l1 as [| a l1 IH]; intros s; cbn [perform_all app].
  - reflexivity.
  - destruct (perform fuel a s); [apply IH | reflexivity].
Qed.

(** The state after the handler has served a failure. *)
Lemma failure_served :
  forall (status : tw_status) (fuel : nat) (s : twi),
    In status [TW_BUS_ERROR; TW_MT_SLA_NACK; TW_MT_DATA_NACK; TW_MT_ARB_LOST] ->
    (length (contents (send s)) <= fuel)%nat ->
    exists s' : twi,
      ISR_TWI fuel status s = Some s' /\
      contents (send s') = [] /\
      i2c_should_end s' = 0 /\
      i2c_state s' = Z.lor (i2c_state s) (Z.lor I2C_ERROR I2C_INTERRUPTED) /\
      i2c_busy s' = i2c_busy s /\
      i2c_address s' = i2c_address s /\
      TWCR s' = twcr 1 I2C_MODE 0 1 1 0 /\
      Z.testbit (TWCR s') TWSTO = true /\ Z.testbit (TWCR s') TWIE = false.
Proof.
  intros status fuel s Hstatus Hlen.
  destruct (drain_empties fuel
              (set_i2c_should_end 0
                 (set_i2c_state (Z.lor (i2c_state s) (Z.lor I2C_ERROR I2C_INTERRUPTED)) s)))
    as (s' & Hd & He & Hst & Hend & Ha & Hc); [exact Hlen|].
  exists (set_TWCR (twcr 1 I2C_MODE 0 1 1 0) s').
  assert (Hrun : ISR_TWI fuel status s = Some (set_TWCR (twcr 1 I2C_MODE 0 1 1 0) s')).
  { cbn [In] in Hstatus.
    destruct Hstatus as [<- | [<- | [<- | [<- | []]]]]; cbn [ISR_TWI]; now rewrite Hd. }
  split; [exact Hrun|]. cbn [send set_TWCR i2c_should_end i2c_state i2c_address TWCR].
  split; [exact He|]. split; [exact Hend|]. split; [exact Hst|].
  split.
  - unfold i2c_busy. cbn [i2c_state set_TWCR]. rewrite Hst. cbn [i2c_state set_i2c_should_end set_i2c_state].
    apply busy_bit_kept_by_error_flags.
  - split; [exact Ha|]. repeat split; reflexivity.
Qed.

(** X9.  A failed transfer.  On a bus error, a NACK to the address or to
    a data byte, or lost arbitration, the handler sets the error and
    interrupted flags and keeps every other bit of [i2c_state], so
    [i2c_busy()] reports what it reported before; it clears
    [i2c_should_end], empties the buffer and writes TWCR with TWSTO set
    and TWIE clear. *)
Theorem failed_transfer_interrupt :
  forall (status : tw_status) (fuel : nat) (s : twi),
    In status [TW_BUS_ERROR; TW_MT_SLA_NACK; TW_MT_DATA_NACK; TW_MT_ARB_LOST] ->
    (length (contents (send s)) <= fuel)%nat ->
    exists s' : twi,
      ISR_TWI fuel status s = Some s' /\
      contents (send s') = [] /\
      i2c_should_end s' = 0 /\
      i2c_state s' = Z.lor (i2c_state s) (Z.lor I2C_ERROR I2C_INTERRUPTED) /\
      i2c_busy s' = i2c_busy s /\
      i2c_address s' = i2c_address s /\
      TWCR s' = twcr 1 I2C_MODE 0 1 1 0 /\
      Z.testbit (TWCR s') TWSTO = true /\ Z.testbit (TWCR s') TWIE = false.
Proof.
  intros status fuel s Hstatus Hlen.
  destruct (failure_served status fuel s Hstatus Hlen) as (s' & Hrun & Hrest).
  exists s'. split; [exact Hrun | exact Hrest].
Qed.

(** Clearing the error flag clears bit 0 of an 8-bit state and keeps every
    other bit. *)
Lemma error_flag_only (st i : Z) :
  0 <= st < 256 ->
  Z.testbit (to_uint8 (Z.land st (Z.lnot I2C_ERROR))) i
  = if i =? 0 then false else Z.testbit st i.
Proof.
  intros Hst. rewrite TimerProofs.to_uint8_bits.
  destruct (Z.eqb_spec i 0) as [-> | Hne].
  - cbn [Z.ltb Z.compare]. rewrite Z.land_spec, Z.lnot_spec by lia.
    change I2C_ERROR with (2 ^ 0). rewrite Z.pow2_bits_eqb by lia.
    cbn. apply andb_false_r.
  - destruct (Z.ltb_spec i 8) as [Hlt | Hge].
    + destruct (Z.neg_nonneg_cases i) as [Hneg | Hnn].
      * now rewrite !Z.testbit_neg_r.
      * rewrite Z.land_spec, Z.lnot_spec by exact Hnn.
        change I2C_ERROR with (2 ^ 0). rewrite Z.pow2_bits_eqb by lia.
        destruct (Z.eqb_spec 0 i) as [E | _]; [congruence|]. apply andb_true_r.
    + symmetry. now apply TimerProofs.uint8_bits_high.
Qed.

(** X10.  While the error flag is set [i2c_write] never waits and never
    queues: the byte is dropped, and the buffer, TWCR, TWDR, TWBR, TWSR,
    the address and [i2c_should_end] are untouched.  A byte that is not
    the last leaves the whole state as it was; the last byte of the
    transmission changes [i2c_state] and nothing else, and in [i2c_state]
    it clears the error flag, bit 0, and keeps every other bit. *)
Theorem write_in_error_state_is_dropped :
  forall (data last_byte : Z) (s : twi),
    Z.land (i2c_state s) I2C_ERROR <> 0 ->
    exists s' : twi,
      i2c_write data last_byte s = Some s' /\
      send s' = send s /\ TWCR s' = TWCR s /\ TWDR s' = TWDR s /\
      TWBR s' = TWBR s /\ TWSR s' = TWSR s /\
      i2c_address s' = i2c_address s /\
      i2c_should_end s' = i2c_should_end s /\
      (last_byte = 0 -> s' = s) /\
      (last_byte <> 0 ->
       Z.land (i2c_state s') I2C_ERROR = 0 /\ i2c_busy s' = i2c_busy s /\
       (0 <= i2c_state s < 256 ->
        forall i : Z,
          Z.testbit (i2c_state s') i
          = if i =? 0 then false else Z.testbit (i2c_state s) i)).
Proof.
  intros data last s Herr. unfold i2c_write.
  destruct (Z.eqb_spec (Z.land (i2c_state s) I2C_ERROR) 0) as [E | _]; [contradiction|].
  cbn [negb]. destruct (Z.eqb_spec last 0) as [-> | Hlast]; cbn [negb].
  - exists s. do 8 (split; [reflexivity|]). split; [reflexivity|].
    intros Hne. contradiction.
  - eexists. split; [reflexivity|].
    cbn [send TWCR TWDR TWBR TWSR i2c_address i2c_should_end set_i2c_state].
    do 7 (split; [reflexivity|]). split; [intros E; contradiction|].
    intros _. split; [|split].
    + cbn [i2c_state set_i2c_state]. apply error_bit_cleared.
    + unfold i2c_busy. cbn [i2c_state set_i2c_state].
      apply busy_bit_kept_by_clearing_error.
    + intros Hrange i. cbn [i2c_state set_i2c_state]. now apply error_flag_only.
Qed.

(** Calls of [i2c_write] on a busy driver leave TWCR alone and the driver
    busy. *)
Lemma writes_on_busy_bus (fuel : nat) (writes : list (Z * Z)) :
  forall s s' : twi,
    i2c_busy s <> 0 ->
    perform_all fuel (map (fun w => Send (fst w) (snd w)) writes) s = Some s' ->
    TWCR s' = TWCR s /\ i2c_busy s' <> 0.
Proof.
  induction writes as [| [data last] writes IH]; intros s s' Hbusy;
    cbn [map perform_all perform fst snd].
  - intros [= <-]. auto.
  - unfold i2c_write.
    destruct (Z.land (i2c_state s) I2C_ERROR =? 0); cbn [negb].
    + destruct (negb (i2c_should_end s =? 0) || negb (buf_canwrite (send s)));
        [discriminate|].
      unfold i2c_busy in Hbusy.
      destruct (Z.eqb_spec (Z.land (i2c_state s) I2C_MODE_BUSY) 0); [contradiction|].
      intros Hrest. apply IH in Hrest; [exact Hrest|].
      unfold i2c_busy. cbn. exact Hbusy.
    + destruct (last =? 0); cbn [negb]; intros Hrest; apply IH in Hrest;
        try exact Hrest; try exact Hbusy.
      unfold i2c_busy in *. cbn [i2c_state set_i2c_state].
      now rewrite busy_bit_kept_by_clearing_error.
Qed.

(** X11.  A failed transfer is not restarted by writing.  After the
    handler has served a failure during a transmission, no sequence of
    [i2c_write] calls writes TWCR again: it keeps the stop condition with
    the TWI interrupt disabled, no START is issued, and [i2c_busy()]
    stays non-zero. *)
Theorem failed_transfer_is_not_restarted :
  forall (status : tw_status) (fuel : nat) (writes : list (Z * Z)) (s s' : twi),
    In status [TW_BUS_ERROR; TW_MT_SLA_NACK; TW_MT_DATA_NACK; TW_MT_ARB_LOST] ->
    (length (contents (send s)) <= fuel)%nat ->
    i2c_busy s <> 0 ->
    perform_all fuel (Serve status :: map (fun w => Send (fst w) (snd w)) writes) s
    = Some s' ->
    TWCR s' = twcr 1 I2C_MODE 0 1 1 0 /\
    Z.testbit (TWCR s') TWSTA = false /\ Z.testbit (TWCR s') TWIE = false /\
    i2c_busy s' <> 0.
Proof.
  intros status fuel writes s s' Hstatus Hlen Hbusy.
  destruct (failure_served status fuel s Hstatus Hlen)
    as (s1 & Hirq & _ & _ & _ & Hb1 & _ & Hc1 & _).
  cbn [perform_all perform]. rewrite Hirq. intros Hrest.
  apply writes_on_busy_bus in Hrest; [|now rewrite Hb1].
  destruct Hrest as (Hc & Hb). rewrite Hc, Hc1. repeat split; try reflexivity. exact Hb.
Qed.

(** *** A transmission that succeeds *)

Lemma write_when_idle (data last_byte : Z) (s : twi) :
  i2c_state s = 0 -> i2c_should_end s = 0 -> contents (send s) = [] ->
  (0 < capacity)%nat ->
  exists s' : twi,
    i2c_write data last_byte s = Some s' /\
    queued contents s' [data] last_byte (i2c_address s) (twcr 1 0 1 0 1 1).
Proof.
  intros Hst Hend Hc Hcap. unfold i2c_write. rewrite Hst, Hend.
  rewrite (canwrite_spec _ _ laws), Hc.
  cbn [length]. destruct (Nat.ltb_spec 0 capacity) as [_ | Hge]; [|lia].
  cbn. eexists. split; [reflexivity|]. unfold queued. cbn.
  rewrite (push_spec _ _ laws), Hc. repeat split; reflexivity.
Qed.

Lemma write_when_queued (data last_byte : Z) (s : twi) (bytes : list Z) (a c : Z) :
  queued contents s bytes 0 a c ->
  (length bytes < capacity)%nat ->
  exists s' : twi,
    i2c_write data last_byte s = Some s' /\ queued contents s' (bytes ++ [data]) last_byte a c.
Proof.
  intros (Hst & Hend & Hc & Ha & Ht) Hlen. unfold i2c_write. rewrite Hst, Hend.
  rewrite (canwrite_spec _ _ laws), Hc.
  destruct (Nat.ltb_spec (length bytes) capacity) as [_ | Hge]; [|lia].
  cbn. eexists. split; [reflexivity|]. unfold queued. cbn.
  rewrite (push_spec _ _ laws), Hc. repeat split; assumption.
Qed.

Lemma writes_when_queued (fuel : nat) (front : list Z) :
  forall (s : twi) (bytes : list Z) (a c : Z),
    queued contents s bytes 0 a c ->
    (length bytes + length front <= capacity)%nat ->
    exists s' : twi,
      perform_all fuel (map (fun d => Send d 0) front) s = Some s' /\
      queued contents s' (bytes ++ front) 0 a c.
Proof.
  induction front as [| d front IH]; intros s bytes a c Hq Hlen.
  - exists s. rewrite app_nil_r. split; [reflexivity | exact Hq].
  - cbn [length] in Hlen.
    destruct (write_when_queued d 0 s bytes a c Hq) as (s1 & Hw & Hq1); [lia|].
    destruct (IH s1 (bytes ++ [d]) a c Hq1) as (s' & Hrun & Hq');
      [rewrite length_app; cbn [length]; lia|].
    exists s'. cbn [map perform_all perform]. rewrite Hw.
    split; [exact Hrun|]. now rewrite <- app_assoc in Hq'.
Qed.

Lemma transmission_queued (fuel : nat) (front : list Z) (final : Z) (s : twi) :
  i2c_state s = 0 -> i2c_should_end s = 0 -> contents (send s) = [] ->
  (length front < capacity)%nat ->
  exists s' : twi,
    perform_all fuel (map (fun d => Send d 0) front ++ [Send final 1]) s = Some s' /\
    queued contents s' (front ++ [final]) 1 (i2c_address s) (twcr 1 0 1 0 1 1).
Proof.
  intros Hst Hend Hc Hlen. destruct front as [| d front].
  - destruct (write_when_idle final 1 s Hst Hend Hc) as (s' & Hw & Hq); [lia|].
    exists s'. cbn [map app perform_all perform]. rewrite Hw. split; [reflexivity | exact Hq].
  - cbn [length] in Hlen.
    destruct (write_when_idle d 0 s Hst Hend Hc) as (s1 & Hw1 & Hq1); [lia|].
    destruct (writes_when_queued fuel front s1 [d] _ _ Hq1) as (s2 & Hw2 & Hq2);
      [cbn [length]; lia|].
    destruct (write_when_queued final 1 s2 _ _ _ Hq2) as (s3 & Hw3 & Hq3);
      [cbn [length app]; lia|].
    exists s3. cbn [map app perform_all perform]. rewrite Hw1, perform_all_app, Hw2.
    cbn [perform_all perform]. rewrite Hw3. split; [reflexivity|].
    now rewrite <- app_assoc in Hq3.
Qed.

Lemma serve_start (fuel : nat) (s : twi) (bytes : list Z) (e a c : Z) :
  queued contents s bytes e a c ->
  exists s' : twi,
    ISR_TWI fuel TW_START s = Some s' /\
    TWDR s' = Z.land a 0xFE /\
    queued contents s' bytes e (Z.land a 0xFE) (twcr 1 I2C_MODE 0 0 1 1).
Proof.
  intros (Hst & Hend & Hc & Ha & Ht). cbn [ISR_TWI]. rewrite Hst, Ha. cbn.
  eexists. split; [reflexivity|]. unfold queued. cbn. repeat split; assumption.
Qed.

(** An acknowledge with bytes waiting hands the oldest one to TWDR. *)
Lemma serve_ack (fuel : nat) (status : tw_status) (s : twi)
      (x : Z) (bytes : list Z) (e a c : Z) :
  status = TW_MT_SLA_ACK \/ status = TW_MT_DATA_ACK ->
  queued contents s (x :: bytes) e a c ->
  exists s' : twi,
    ISR_TWI fuel status s = Some s' /\ TWDR s' = x /\
    queued contents s' bytes e a (twcr 1 I2C_MODE 0 0 1 1).
Proof.
  intros Hstatus (Hst & Hend & Hc & Ha & Ht).
  destruct (pop_spec _ _ laws _ _ _ Hc) as (Hx & Hl).
  destruct Hstatus as [-> | ->]; cbn [ISR_TWI]; rewrite Hst, (canread_cons _ _ _ Hc); cbn;
    (eexists; split; [reflexivity|]); unfold queued; cbn; repeat split; assumption.
Qed.

Lemma serve_acks (fuel : nat) (sent : list Z) :
  forall (s : twi) (x : Z) (pending : list Z) (e a c : Z),
    queued contents s (sent ++ x :: pending) e a c ->
    exists s' : twi,
      perform_all fuel (repeat (Serve TW_MT_DATA_ACK) (S (length sent))) s = Some s' /\
      TWDR s' = x /\ queued contents s' pending e a (twcr 1 I2C_MODE 0 0 1 1).
Proof.
  induction sent as [| y sent IH]; intros s x pending e a c Hq.
  - destruct (serve_ack fuel TW_MT_DATA_ACK s x pending e a c (or_intror eq_refl) Hq)
      as (s' & Hrun & Hx & Hq').
    exists s'. cbn [length repeat perform_all perform]. now rewrite Hrun.
  - destruct (serve_ack fuel TW_MT_DATA_ACK s y (sent ++ x :: pending) e a c
                (or_intror eq_refl) Hq) as (s1 & Hrun & _ & Hq1).
    destruct (IH s1 x pending e a _ Hq1) as (s' & Hrest & Hx & Hq').
    exists s'. cbn [length]. cbn [repeat perform_all perform] in *. rewrite Hrun.
    split; [exact Hrest|]. split; assumption.
Qed.

(** The acknowledge that finds the buffer empty ends the transmission. *)
Lemma serve_last_ack (fuel : nat) (s : twi) (e a c : Z) :
  queued contents s [] e a c ->
  exists s' : twi,
    ISR_TWI fuel TW_MT_DATA_ACK s = Some s' /\
    i2c_state s' = 0 /\ i2c_should_end s' = 0 /\ contents (send s') = [] /\
    TWCR s' = twcr 1 I2C_MODE 0 1 1 0.
Proof.
  intros (Hst & Hend & Hc & Ha & Ht). cbn [ISR_TWI].
  rewrite Hst, (canread_nil _ Hc). cbn.
  eexists. split; [reflexivity|]. cbn. repeat split; try reflexivity. exact Hc.
Qed.

Lemma queued_busy (s : twi) (bytes : list Z) (e a c : Z) :
  queued contents s bytes e a c -> i2c_busy s <> 0.
Proof. intros (Hst & _). unfold i2c_busy. rewrite Hst. discriminate. Qed.

(** X12.  A transmission that meets no failure.  Starting with the driver
    idle, [i2c_write] calls for the bytes [front ++ [final]], the last one
    marked, that fit the buffer are followed by the interrupts of the
    transfer.  The START interrupt sends the address with the write bit
    (bit 0 clear).  The bytes reach TWDR in the order written: after the
    address acknowledge and one data acknowledge for each byte of [sent],
    TWDR holds the byte written next and the bytes written after it are
    still queued.  The acknowledge of the last byte ends the transmission:
    stop condition, [i2c_state] zero, buffer empty. *)
Theorem transmission_in_order :
  forall (fuel : nat) (front : list Z) (final : Z) (s : twi),
    i2c_state s = 0 -> i2c_should_end s = 0 -> contents (send s) = [] ->
    (length front < capacity)%nat ->
    let calls := map (fun d => Send d 0) front ++ [Send final 1] in
    (exists s' : twi,
        perform_all fuel (calls ++ [Serve TW_START]) s = Some s' /\
        TWDR s' = Z.land (i2c_address s) 0xFE /\ Z.testbit (TWDR s') 0 = false) /\
    (forall (sent : list Z) (x : Z) (pending : list Z),
        front ++ [final] = sent ++ x :: pending ->
        exists s' : twi,
          perform_all fuel
            (calls ++ Serve TW_START :: Serve TW_MT_SLA_ACK
                   :: repeat (Serve TW_MT_DATA_ACK) (length sent)) s = Some s' /\
          TWDR s' = x /\ contents (send s') = pending /\ i2c_busy s' <> 0) /\
    (exists s' : twi,
        perform_all fuel
          (calls ++ Serve TW_START :: Serve TW_MT_SLA_ACK
                 :: repeat (Serve TW_MT_DATA_ACK) (length (front ++ [final]))) s
        = Some s' /\
        i2c_state s' = 0 /\ i2c_busy s' = 0 /\ i2c_should_end s' = 0 /\
        contents (send s') = [] /\ TWCR s' = twcr 1 I2C_MODE 0 1 1 0).
Proof.
  intros fuel front final s Hst Hend Hc Hlen calls.
  destruct (transmission_queued fuel front final s Hst Hend Hc Hlen) as (s1 & Hcalls & Hq1).
  fold calls in Hcalls.
  destruct (serve_start fuel s1 _ _ _ _ Hq1) as (s2 & Hstart & Hd2 & Hq2).
  assert (Hbytes : exists b0 rest, front ++ [final] = b0 :: rest).
  { destruct front; cbn; eauto. }
  destruct Hbytes as (b0 & rest & Hbytes). rewrite Hbytes in *.
  destruct (serve_ack fuel TW_MT_SLA_ACK s2 b0 rest _ _ _ (or_introl eq_refl) Hq2)
    as (s3 & Hsla & Hd3 & Hq3).
  split; [|split].
  - exists s2. rewrite perform_all_app, Hcalls. cbn [perform_all perform]. rewrite Hstart.
    split; [reflexivity|]. split; [exact Hd2|]. rewrite Hd2, Z.land_spec.
    change (Z.testbit 0xFE 0) with false. apply andb_false_r.
  - intros sent x pending Hsplit.
    rewrite perform_all_app, Hcalls. cbn [perform_all perform]. rewrite Hstart, Hsla.
    destruct sent as [| y sent].
    + cbn [app] in Hsplit. injection Hsplit as -> ->.
      exists s3. cbn [length repeat perform_all]. split; [reflexivity|].
      split; [exact Hd3|]. split; [apply Hq3 | exact (queued_busy _ _ _ _ _ Hq3)].
    + cbn [app] in Hsplit. injection Hsplit as -> ->.
      destruct (serve_acks fuel sent s3 x pending _ _ _ Hq3) as (s' & Hrun & Hx & Hq').
      exists s'. cbn [length]. split; [exact Hrun|]. split; [exact Hx|].
      split; [apply Hq' | exact (queued_busy _ _ _ _ _ Hq')].
  - rewrite perform_all_app, Hcalls. cbn [perform_all perform length]. rewrite Hstart, Hsla.
    assert (Hdrained : exists s4 c,
               perform_all fuel (repeat (Serve TW_MT_DATA_ACK) (length rest)) s3 = Some s4 /\
               queued contents s4 [] 1 (Z.land (i2c_address s) 0xFE) c).
    { destruct rest as [| r0 rest0] eqn:Erest.
      - exists s3. eexists. split; [reflexivity | exact Hq3].
      - destruct (@exists_last _ (r0 :: rest0) ltac:(discriminate)) as (sent & x & Hr).
        rewrite Hr in Hq3.
        destruct (serve_acks fuel sent s3 x [] _ _ _ Hq3) as (s4 & Hrun & _ & Hq4).
        exists s4. eexists. rewrite Hr, length_app, Nat.add_comm. cbn [length Nat.add].
        split; [exact Hrun | exact Hq4]. }
    destruct Hdrained as (s4 & c & Hrun & Hq4).
    destruct (serve_last_ack fuel s4 _ _ _ Hq4) as (s5 & Hlast & H5).
    exists s5. split.
    + replace (S (length rest)) with (length rest + 1)%nat by lia.
      rewrite repeat_app, perform_all_app, Hrun. cbn [repeat perform_all perform].
      now rewrite Hlast.
    + destruct H5 as (H5st & H5). split; [exact H5st|]. split; [|exact H5].
      unfold i2c_busy. now rewrite H5st.
Qed.

End WithBuffer.

Lemma list_buffer_laws (capacity : nat) :
  @fifo_laws (list Z) (list_buffer capacity) (fun b => b) capacity.
Proof.
  split; cbn; intros.
  - reflexivity.
  - reflexivity.
  - reflexivity.
  - subst b. cbn. auto.
Qed.

Lemma failed_transfer_interrupt_witness :
  exists s' : twi,
    @ISR_TWI (list Z) (list_buffer 8) 2 TW_MT_DATA_NACK mid_transfer = Some s' /\
    send s' = [] /\ i2c_state s' = 0xC5 /\ TWCR s' = 0x94 /\
    @i2c_busy (list Z) s' = 0x40.
Proof.
  destruct (@failed_transfer_interrupt (list Z) (list_buffer 8) (fun b => b) 8
              (list_buffer_laws 8) TW_MT_DATA_NACK 2 mid_transfer)
    as (s' & Hrun & He & _ & Hst & Hb & _ & Hc & _).
  - cbn. auto.
  - cbn. lia.
  - exists s'. split; [exact Hrun|]. split; [exact He|]. split; [exact Hst|].
    split; [exact Hc | exact Hb].
Defined.

Lemma write_in_error_state_is_dropped_witness :
  Z.land (i2c_state (set_i2c_state 0xC5 mid_transfer)) I2C_ERROR <> 0 /\
  @i2c_write (list Z) (list_buffer 8) 0x43 0 (set_i2c_state 0xC5 mid_transfer)
  = Some (set_i2c_state 0xC5 mid_transfer) /\
  exists s' : twi,
    @i2c_write (list Z) (list_buffer 8) 0x43 1 (set_i2c_state 0xC5 mid_transfer) = Some s' /\
    send s' = [0x41; 0x42] /\ TWBR s' = 72 /\ i2c_address s' = 0x78 /\
    Z.land (i2c_state s') I2C_ERROR = 0 /\
    Z.testbit (i2c_state s') 0 = false /\
    Z.testbit (i2c_state s') 2 = true /\
    Z.testbit (i2c_state s') 6 = true /\
    Z.testbit (i2c_state s') 7 = true.
Proof.
  assert (Herr : Z.land (i2c_state (set_i2c_state 0xC5 mid_transfer)) I2C_ERROR <> 0)
    by (cbn; discriminate).
  assert (Hrange : 0 <= i2c_state (set_i2c_state 0xC5 mid_transfer) < 256)
    by (cbn; lia).
  split; [exact Herr|]. split.
  - destruct (@write_in_error_state_is_dropped (list Z) (list_buffer 8) 0x43 0 _ Herr)
      as (s' & Hw & _ & _ & _ & _ & _ & _ & _ & Hsame & _).
    rewrite Hw. f_equal. apply Hsame. reflexivity.
  - destruct (@write_in_error_state_is_dropped (list Z) (list_buffer 8) 0x43 1 _ Herr)
      as (s' & Hw & Hs & _ & _ & Hbr & _ & Haddr & _ & _ & Hclear).
    destruct Hclear as (Hflag & _ & Hbits); [discriminate|].
    exists s'. split; [exact Hw|]. split; [exact Hs|]. split; [exact Hbr|].
    split; [exact Haddr|]. split; [exact Hflag|].
    rewrite !(Hbits Hrange). repeat split; reflexivity.
Defined.

Lemma failed_transfer_is_not_restarted_witness :
  exists s' : twi,
    @perform_all (list Z) (list_buffer 8) 2
      [Serve TW_MT_SLA_NACK; Send 0x43 1; Send 0x44 0; Send 0x45 1] mid_transfer = Some s' /\
    send s' = [0x44; 0x45] /\
    TWCR s' = twcr 1 I2C_MODE 0 1 1 0 /\ @i2c_busy (list Z) s' <> 0.
Proof.
  eexists. split; [vm_compute; reflexivity|]. split; [reflexivity|].
  refine (let H := @failed_transfer_is_not_restarted (list Z) (list_buffer 8) (fun b => b) 8
                     (list_buffer_laws 8) TW_MT_SLA_NACK 2
                     [(0x43, 1); (0x44, 0); (0x45, 1)] mid_transfer _ _ _ _ _ in
          conj (proj1 H) (proj2 (proj2 (proj2 H)))).
  - cbn. auto.
  - cbn. lia.
  - cbn. discriminate.
  - vm_compute. reflexivity.
Defined.

Lemma transmission_in_order_witness :
  exists s' : twi,
    @perform_all (list Z) (list_buffer 8) 0
      ([Send 0x41 0; Send 0x42 0; Send 0x43 1]
       ++ Serve TW_START :: Serve TW_MT_SLA_ACK
          :: repeat (Serve TW_MT_DATA_ACK) (length [0x41])) idle_bus = Some s' /\
    TWDR s' = 0x42 /\ send s' = [0x43] /\ @i2c_busy (list Z) s' <> 0.
Proof.
  destruct (@transmission_in_order (list Z) (list_buffer 8) (fun b => b) 8
              (list_buffer_laws 8) 0 [0x41; 0x42] 0x43 idle_bus
              eq_refl eq_refl eq_refl ltac:(cbn; lia)) as (_ & Horder & _).
  exact (Horder [0x41] 0x42 [0x43] eq_refl).
Defined.

(** X13.  [i2c_init] on an idle driver, for a bit rate setting that fits
    the 8-bit TWBR: it takes the address and programs TWBR with
    [(F_CPU / I2C_BITRATE - 16) / 2].  By the formula of the file,
    [SCL = F_CPU / (16 + 2 * TWBR)], this is the slowest bus clock that is
    not below [I2C_BITRATE]: the clock reaches the requested rate, and
    with TWBR one higher it would fall short of it.  While the driver is
    busy the call waits. *)
Theorem i2c_init_bit_rate :
  forall (B : Type) (RB : RingBuffer B) (F_CPU I2C_BITRATE address : Z) (s : @twi B),
    0 < I2C_BITRATE ->
    16 <= F_CPU / I2C_BITRATE ->
    (F_CPU / I2C_BITRATE - 16) / 2 < 256 ->
    (i2c_busy s <> 0 -> i2c_init F_CPU I2C_BITRATE address s = None) /\
    (i2c_busy s = 0 ->
     exists s' : twi,
       i2c_init F_CPU I2C_BITRATE address s = Some s' /\
       i2c_address s' = address /\ TWSR s' = 0 /\
       TWBR s' = (F_CPU / I2C_BITRATE - 16) / 2 /\
       I2C_BITRATE <= F_CPU / (16 + 2 * TWBR s') /\
       F_CPU / (16 + 2 * (TWBR s' + 1)) < I2C_BITRATE).
Proof.
  intros B RB F R address s HR Hq Ht. unfold i2c_busy, i2c_init. split.
  - intros Hbusy.
    destruct (Z.eqb_spec (Z.land (i2c_state s) I2C_MODE_BUSY) 0); [contradiction | reflexivity].
  - intros ->. cbn [Z.eqb negb].
    set (q := F / R) in *. set (t := (q - 16) / 2) in *.
    assert (Htq : 2 * t <= q - 16 < 2 * t + 2)
      by (subst t; Z.div_mod_to_equations; lia).
    assert (H32 : to_uint32 (q - 16) = q - 16).
    { unfold to_uint32. apply Z.mod_small. lia. }
    assert (H8 : to_uint8 t = t).
    { unfold to_uint8. apply Z.mod_small. lia. }
    eexists. split; [reflexivity|].
    cbn [i2c_address TWSR TWBR set_TWSR set_TWBR set_i2c_address].
    rewrite H32. fold t. rewrite H8.
    split; [reflexivity|]. split; [reflexivity|]. split; [reflexivity|].
    pose proof (Z.mul_div_le F R HR) as Hlow. fold q in Hlow.
    pose proof (Z.mul_succ_div_gt F R HR) as Hhigh. fold q in Hhigh.
    split.
    + apply Z.div_le_lower_bound; nia.
    + apply Z.div_lt_upper_bound; nia.
Qed.

Lemma i2c_init_bit_rate_witness :
  0 < 400000 /\ 16 <= 16000000 / 400000 /\ (16000000 / 400000 - 16) / 2 < 256 /\
  exists s' : twi,
    @i2c_init (list Z) 16000000 400000 0x78 idle_bus = Some s' /\ TWBR s' = 12.
Proof.
  assert (H1 : 0 < 400000) by lia.
  assert (H2 : 16 <= 16000000 / 400000) by (vm_compute; discriminate).
  assert (H3 : (16000000 / 400000 - 16) / 2 < 256) by (vm_compute; reflexivity).
  split; [exact H1|]. split; [exact H2|]. split; [exact H3|].
  destruct (proj2 (i2c_init_bit_rate (list Z) (list_buffer 8) 16000000 400000 0x78
                     idle_bus H1 H2 H3) eq_refl) as (s' & Hrun & _ & _ & Ht & _).
  exists s'. split; [exact Hrun | exact Ht].
Defined.

End I2cProofs.

(** * Properties of the homing routines taken together *)

Module HomeAllProofs.
Import Home HomeProofs HomeAll.

#[local] Arguments double_to_Z : simpl never.
#[local] Arguments Z.gtb : simpl never.
#[local] Arguments SEARCH_FAST_X : simpl never.
#[local] Arguments SEARCH_FAST_Y : simpl never.
#[local] Arguments SEARCH_FAST_Z : simpl never.
#[local] Arguments SEARCH_FAST_U : simpl never.

Lemma axis_eq_dec (a b : Axis.t) : {a = b} + {a <> b}.
Proof. decide equality. Defined.

(** A routine that is not built does nothing.  (For a MAX routine with
    the pin but without the limit this is the model only: such a
    configuration stops at the [#error] of home.c.) *)
Lemma run_not_built (api : queue_api) (cfg : config) (r : routine) (w : world) :
  built cfg r = false -> execState (run api cfg r) w = w.
Proof.
  intros Hb.
  destruct r; cbn [built] in Hb; try apply andb_false_iff in Hb;
    unfold run, home_x_negative, home_x_positive, home_y_negative, home_y_positive,
      home_z_negative, home_z_positive, home_u_negative, home_u_positive.
  all: try (rewrite Hb; reflexivity).
  all: destruct Hb as [Hpin | Hlim]; [rewrite Hpin; reflexivity|].
  all: match goal with
       | |- context [match ?pin with true => _ | false => _ end] => destruct pin
       end; try reflexivity.
  all: match goal with
       | H : is_some ?lim = false |- _ => destruct lim; [discriminate | reflexivity]
       end.
Qed.

(** Where a built routine leaves [startpoint]. *)
Lemma run_startpoint (api : queue_api) (cfg : config) (r : routine) (w : world) :
  built cfg r = true ->
  keeps_startpoint api ->
  forall a : Axis.t,
    axis (startpoint (mem (execState (run api cfg r) w))) a
    = axis (set_axis (axis_of r) (home_coordinate cfg r) (startpoint (mem w))) a.
Proof.
  intros Hbuilt Hkeeps a.
  destruct (run_mem api cfg r w Hbuilt) as (g & Hmem & Hframe).
  rewrite Hmem. pose proof Hkeeps as (_ & Hwait & Hnew).
  rewrite Hnew. cbn [startpoint].
  destruct (axis_eq_dec (axis_of r) a) as [<- | Hne].
  - now rewrite !axis_set_axis_same.
  - rewrite !axis_set_axis_other by exact Hne.
    rewrite Hwait. apply Hframe; [congruence | exact Hkeeps].
Qed.

(** X14.  A homing routine whose endstop pin is not defined does nothing
    at all: no call, no store, globals untouched. *)
Theorem routine_without_endstop_does_nothing :
  forall (api : queue_api) (cfg : config) (r : routine) (w : world),
    pin_defined cfg r = false ->
    execState (run api cfg r) w = w /\
    trace (execState (run api cfg r) w) = trace w /\
    mem (execState (run api cfg r) w) = mem w.
Proof.
  intros api cfg r w Hpin.
  assert (Hb : built cfg r = false)
    by (destruct r; cbn [built pin_defined] in *; rewrite Hpin; reflexivity).
  rewrite run_not_built by exact Hb.
  repeat split; reflexivity.
Qed.

Lemma routine_without_endstop_does_nothing_witness :
  pin_defined no_endstops U_negative = false /\
  pin_defined no_endstops X_positive = false /\
  execState (home_u_negative chaining_queue no_endstops) somewhere = somewhere /\
  execState (home_x_positive chaining_queue no_endstops) somewhere = somewhere.
Proof.
  split; [reflexivity|]. split; [reflexivity|]. split.
  - exact (proj1 (routine_without_endstop_does_nothing chaining_queue no_endstops U_negative
                    somewhere eq_refl)).
  - exact (proj1 (routine_without_endstop_does_nothing chaining_queue no_endstops X_positive
                    somewhere eq_refl)).
Defined.

(** X15.  Each of the eight routines, when built, ends with [startpoint]
    at the home coordinate on its own axis ([*_MIN * 1000] or 0 for a MIN
    routine, [*_MAX * 1000] for a MAX routine) and unchanged on every
    other axis, provided the queue functions treat [startpoint] as
    [keeps_startpoint] says. *)
Theorem every_routine_sets_its_origin :
  forall (api : queue_api) (cfg : config) (r : routine) (w : world),
    built cfg r = true ->
    keeps_startpoint api ->
    let w' := execState (run api cfg r) w in
    axis (startpoint (mem w')) (axis_of r) = home_coordinate cfg r /\
    forall a, a <> axis_of r ->
      axis (startpoint (mem w')) a = axis (startpoint (mem w)) a.
Proof.
  intros api cfg r w Hbuilt Hkeeps w'. subst w'. split.
  - rewrite run_startpoint by assumption. apply axis_set_axis_same.
  - intros a Ha. rewrite run_startpoint by assumption.
    apply axis_set_axis_other. congruence.
Qed.

Lemma every_routine_sets_its_origin_witness :
  built (all_endstops 100) U_positive = true /\
  keeps_startpoint chaining_queue /\
  axis (startpoint (mem (execState (home_u_positive chaining_queue (all_endstops 100))
                           somewhere))) Axis.U = 90000 /\
  axis (startpoint (mem (execState (home_u_positive chaining_queue (all_endstops 100))
                           somewhere))) Axis.Z = 33000.
Proof.
  pose proof (every_routine_sets_its_origin chaining_queue (all_endstops 100) U_positive
                somewhere eq_refl chaining_queue_keeps_startpoint) as (Hown & Hother).
  split; [reflexivity|]. split; [exact chaining_queue_keeps_startpoint|].
  split; [exact Hown|]. apply (Hother Axis.Z). discriminate.
Defined.

Lemma exec_then {A : Type} (c : state world A) (k : state world unit) (w : world) :
  execState (c ;; k) w = execState k (execState c w).
Proof. unfold execState. cbn. now destruct (runState c w). Qed.

Lemma run_all_app (api : queue_api) (cfg : config) (rs1 rs2 : list routine) (w : world) :
  run_all api cfg (rs1 ++ rs2) w = run_all api cfg rs2 (run_all api cfg rs1 w).
Proof. unfold run_all. apply fold_left_app. Qed.

(** [home()] is its plan, routine after routine. *)
Lemma home_runs_plan (api : queue_api) (cfg : config) (w : world) :
  execState (home api cfg) w = run_all api cfg (home_plan cfg) w.
Proof.
  unfold home, home_plan. rewrite !exec_then, !run_all_app.
  unfold choice.
  destruct (X_MIN_PIN cfg), (X_MAX_PIN cfg), (Y_MIN_PIN cfg), (Y_MAX_PIN cfg),
    (Z_MIN_PIN cfg), (Z_MAX_PIN cfg), (U_MIN_PIN cfg), (U_MAX_PIN cfg); reflexivity.
Qed.

Lemma startpoint_stores_app (l1 l2 : list event) :
  startpoint_stores (l1 ++ l2) = startpoint_stores l1 ++ startpoint_stores l2.
Proof. unfold startpoint_stores. apply flat_map_app. Qed.

Lemma homing_moves_store_nothing (cfg : config) (r : routine) (t : TARGET) :
  startpoint_stores (homing_moves cfg r t) = [].
Proof.
  unfold homing_moves.
  now destruct (search_fast cfg (axis_of r) >? search_feedrate cfg (axis_of r)).
Qed.

Lemma run_all_stores (api : queue_api) (cfg : config) (rs : list routine) :
  forall w : world,
    startpoint_stores (trace (run_all api cfg rs w))
    = startpoint_stores (trace w)
      ++ map (fun r => (axis_of r, home_coordinate cfg r)) (filter (built cfg) rs).
Proof.
  induction rs as [| r rs IH]; intros w.
  - cbn. now rewrite app_nil_r.
  - change (run_all api cfg (r :: rs) w)
      with (run_all api cfg rs (execState (run api cfg r) w)).
    rewrite IH. cbn [filter].
    destruct (built cfg r) eqn:Hb.
    + rewrite run_trace by exact Hb.
      rewrite !startpoint_stores_app, homing_moves_store_nothing.
      cbn [map app startpoint_stores flat_map]. rewrite <- app_assoc. reflexivity.
    + now rewrite run_not_built by exact Hb.
Qed.

Lemma homed_position_axes (cfg : config) (rs : list routine) :
  forall t t' : TARGET,
    (forall a, axis t a = axis t' a) ->
    forall a, axis (homed_position cfg rs t) a = axis (homed_position cfg rs t') a.
Proof.
  induction rs as [| r rs IH]; intros t t' Heq; [exact Heq|].
  cbn [homed_position fold_left]. apply IH. intros a.
  destruct (built cfg r); [|apply Heq].
  destruct (axis_eq_dec (axis_of r) a) as [<- | Hne].
  - now rewrite !axis_set_axis_same.
  - rewrite !axis_set_axis_other by exact Hne. apply Heq.
Qed.

Lemma run_all_startpoint (api : queue_api) (cfg : config) (rs : list routine) :
  keeps_startpoint api ->
  forall (w : world) (a : Axis.t),
    axis (startpoint (mem (run_all api cfg rs w))) a
    = axis (homed_position cfg rs (startpoint (mem w))) a.
Proof.
  intros Hkeeps. induction rs as [| r rs IH]; intros w a; [reflexivity|].
  change (run_all api cfg (r :: rs) w)
    with (run_all api cfg rs (execState (run api cfg r) w)).
  rewrite IH. cbn [homed_position fold_left]. apply homed_position_axes.
  intros b. destruct (built cfg r) eqn:Hb.
  - now apply run_startpoint.
  - now rewrite run_not_built.
Qed.

(** X16.  [home()] runs, in the order X, Y, Z, U, one routine for each
    axis that has an endstop pin: the MIN routine if the MIN pin is
    defined, else the MAX routine.  It stores to [startpoint] once for
    each such axis, in that order, the axis and its home coordinate; and
    provided the queue functions treat [startpoint] as [keeps_startpoint]
    says, it returns with every homed axis at its home coordinate and
    every other axis, E included, where it was. *)
Theorem home_homes_each_axis_in_turn :
  forall (api : queue_api) (cfg : config) (w : world),
    let w' := execState (home api cfg) w in
    w' = run_all api cfg (home_plan cfg) w /\
    startpoint_stores (trace w')
    = startpoint_stores (trace w)
      ++ map (fun r => (axis_of r, home_coordinate cfg r))
           (filter (built cfg) (home_plan cfg)) /\
    (keeps_startpoint api ->
     forall a : Axis.t,
       axis (startpoint (mem w')) a
       = axis (homed_position cfg (home_plan cfg) (startpoint (mem w))) a) /\
    (keeps_startpoint api ->
     axis (startpoint (mem w')) Axis.E = axis (startpoint (mem w)) Axis.E).
Proof.
  intros api cfg w w'. subst w'. rewrite home_runs_plan.
  split; [reflexivity|]. split; [apply run_all_stores|]. split.
  - intros Hkeeps a. now apply run_all_startpoint.
  - intros Hkeeps. rewrite run_all_startpoint by exact Hkeeps.
    assert (HE : forall rs t,
               (forall r, In r rs -> axis_of r <> Axis.E) ->
               axis (homed_position cfg rs t) Axis.E = axis t Axis.E).
    { induction rs as [| r rs IH]; intros t Hrs; [reflexivity|].
      change (axis (homed_position cfg rs
                      (if built cfg r
                       then set_axis (axis_of r) (home_coordinate cfg r) t else t))
                Axis.E = axis t Axis.E).
      rewrite IH by (intros r' Hr'; apply Hrs; now right).
      destruct (built cfg r); [|reflexivity].
      apply axis_set_axis_other. apply Hrs. now left. }
    apply HE. intros r _. destruct r; discriminate.
Qed.

(** [home()] with every endstop fitted, and with none. *)
Example home_all_endstops :
  startpoint (mem (execState (home chaining_queue (all_endstops 100)) somewhere))
  = {| axis_X := 12500; axis_Y := 0; axis_Z := 0; axis_U := 0; axis_E := 55000;
       F := 100 |}
  /\ endstop_checks (trace (execState (home chaining_queue (all_endstops 100)) somewhere))
     = [0x01; 0x01; 0x04; 0x04; 0x10; 0x10; 0x10; 0x10]
  /\ execState (home chaining_queue no_endstops) somewhere = somewhere.
Proof. repeat split; vm_compute; reflexivity. Qed.

End HomeAllProofs.
